(** * validateSummaries.mjs: the summary audit and its dismissal store

    A shallow embedding of [src/scripts/validateSummaries.mjs]: the
    tracked-file filter of [getGitTrackedFiles], the classification loop and
    the decision handling of [validateSummaries], the loading of
    [dismissed.json] and the entry point's scope loop.

    Strings are Rocq strings, JavaScript arrays are lists, the [dismissed]
    object is a finite map from scope labels to arrays of paths, modification
    times are integers (the millisecond time value of a [Date]).  The
    [async] functions run sequentially, so they are modelled as computations
    in a state-and-exception monad over the mutable parts of the process: the
    [dismissed] object, the content of [dismissed.json] and the console. *)

From Stdlib Require Import ZArith String Ascii.
From stdpp Require Import base strings list gmap.

Local Open Scope Z_scope.
Local Open Scope string_scope.
Local Open Scope list_scope.

(** ** JavaScript string and array primitives used by the script *)

(** [s.split(sep)] for a one-character separator: the pieces between the
    separators, in order; an empty piece where two separators touch or where
    the string starts or ends with one. *)
Fixpoint split (sep : ascii) (s : string) : list string :=
  match s with
  | EmptyString => [EmptyString]
  | String c s' =>
      if Ascii.eqb c sep then EmptyString :: split sep s'
      else match split sep s' with
           | [] => [String c EmptyString]
           | piece :: pieces => String c piece :: pieces
           end
  end.

(** [s.startsWith(p)]. *)
Fixpoint startsWith (s p : string) {struct p} : bool :=
  match p, s with
  | EmptyString, _ => true
  | String _ _, EmptyString => false
  | String a p', String b s' => Ascii.eqb a b && startsWith s' p'
  end.

(** [s.includes(sub)]: [sub] starts at some position of [s]. *)
Fixpoint includes (s sub : string) : bool :=
  startsWith s sub ||
  match s with
  | EmptyString => false
  | String _ s' => includes s' sub
  end.

(** A string used as a condition is truthy when it is not empty. *)
Definition truthy (s : string) : bool :=
  match s with
  | EmptyString => false
  | String _ _ => true
  end.

(** [arr.includes(x)] on an array of strings. *)
Definition arr_includes (arr : list string) (x : string) : bool :=
  bool_decide (x ∈ arr).

(** A JavaScript [Set] of strings keeps its members in insertion order;
    [add] of a member already present changes nothing. *)
Definition Set_add (s : list string) (x : string) : list string :=
  if arr_includes s x then s else s ++ [x].

(** [[...new Set(arr)]]: the members are added from left to right. *)
Definition Set_of (arr : list string) : list string :=
  foldl Set_add [] arr.

(** ** Paths

    The script runs [path.join] and [path.relative] on the scope root and on
    the lines printed by [git ls-files], which are normalised relative
    paths.  On such inputs (POSIX) [join] puts a slash between its
    arguments and [relative] removes the root and the slash again. *)

Definition newline : ascii := "010"%char.

Definition path_join (dir file : string) : string :=
  dir +:+ "/" +:+ file.

Fixpoint strip_prefix (p s : string) : option string :=
  match p, s with
  | EmptyString, _ => Some s
  | String _ _, EmptyString => None
  | String a p', String b s' =>
      if Ascii.eqb a b then strip_prefix p' s' else None
  end.

Definition path_relative (from to : string) : string :=
  match strip_prefix (from +:+ "/") to with
  | Some rest => rest
  | None => to
  end.

Definition summarySubDir : string := "summary".

(** ** The tracked-file filter (lines 35 to 38) *)

Definition keep_line (file : string) : bool :=
  truthy file
  && negb (includes file "node_modules")
  && negb (startsWith file (summarySubDir +:+ "/")).

Definition tracked_lines (stdout : string) : list string :=
  filter (λ file, keep_line file = true) (split newline stdout).

(** ** The process: environment, mutable state, exceptions *)

(** What the script observes and cannot change: the output of
    [git ls-files] run in a directory ([None] when the command fails),
    existence of files, modification times ([None] when [statSync] throws,
    for instance on a tracked file deleted from the working tree), whether
    [dismissed.json] can be written, and the user's answer to the action
    prompt of a scope. *)
Inductive Action : Set :=
  | UpdateSummaries
  | DismissAlerts
  | IgnoreForNow.

Record Env : Type := {
  git_ls_files : string → option string;
  existsSync : string → bool;
  statSync_mtime : string → option Z;
  writable : bool;
  prompt_action : string → Action
}.

Inductive Error : Set :=
  | ExecError
  | StatError (file : string)
  | WriteError.

Inductive Event : Set :=
  | ErrorFetchingFiles
  | AllUpToDate (dirLabel : string)
  | MissingReport (dirLabel : string) (files : list string)
  | OutdatedReport (dirLabel : string) (files : list string)
  | PleaseUpdate
  | AlertsDismissed (dirLabel : string)
  | AlertsIgnored
  | ErrorOccurred (err : Error).

(** The mutable parts: the module-level [dismissed] object, the content of
    [dismissed.json] ([None] while the file does not exist) and the lines
    printed so far. *)
Record World : Type := {
  dismissed : gmap string (list string);
  disk : option (gmap string (list string));
  console : list Event
}.

Inductive Result (A : Type) : Type :=
  | Ok (a : A)
  | Throw (err : Error).
Arguments Ok {A} a.
Arguments Throw {A} err.

(** A computation changes the world and returns or throws; what it changed
    before throwing stays changed. *)
Definition M (A : Type) : Type := World → Result A * World.

Definition ret {A} (a : A) : M A := λ w, (Ok a, w).

Definition bind {A B} (m : M A) (k : A → M B) : M B :=
  λ w, match m w with
       | (Ok a, w') => k a w'
       | (Throw e, w') => (Throw e, w')
       end.

Definition throw {A} (e : Error) : M A := λ w, (Throw e, w).

Definition try_catch {A} (m : M A) (handler : Error → M A) : M A :=
  λ w, match m w with
       | (Ok a, w') => (Ok a, w')
       | (Throw e, w') => handler e w'
       end.

Notation "'let!' x ':=' m 'in' k" := (bind m (λ x, k))
  (at level 10, x pattern, m at level 100, k at level 200).
Notation "m ';;' k" := (bind m (λ _, k))
  (at level 100, k at level 200, right associativity).

Definition get_dismissed : M (gmap string (list string)) :=
  λ w, (Ok (dismissed w), w).

Definition set_dismissed (d : gmap string (list string)) : M unit :=
  λ w, (Ok tt, {| dismissed := d; disk := disk w; console := console w |}).

Definition log (ev : Event) : M unit :=
  λ w, (Ok tt, {| dismissed := dismissed w; disk := disk w;
                  console := console w ++ [ev] |}).

Definition lift_opt {A} (o : option A) (e : Error) : M A :=
  match o with
  | Some a => ret a
  | None => throw e
  end.

(** [forEach] over an array with a callback that may throw. *)
Fixpoint forEach {A S} (body : S → A → M S) (l : list A) (s : S) : M S :=
  match l with
  | [] => ret s
  | x :: l' => let! s' := body s x in forEach body l' s'
  end.

(** [dismissed[dirLabel]], an array once line 53 has run. *)
Definition dismissed_for (d : gmap string (list string)) (dirLabel : string)
  : list string :=
  default [] (d !! dirLabel).

(** Line 110, [dismissed[dirLabel] = [...new Set([...])]], as a function of
    the mapping: the scope's array becomes the members of the set built from
    its old entries followed by the new paths. *)
Definition record_dismissals (d : gmap string (list string))
    (dirLabel : string) (toDismiss : list string)
  : gmap string (list string) :=
  <[dirLabel := Set_of (dismissed_for d dirLabel ++ toDismiss)]> d.

(** Line 53, [dismissed[dirLabel] = dismissed[dirLabel] || []], as a function
    of the mapping. *)
Definition ensure_record (d : gmap string (list string)) (dirLabel : string)
  : gmap string (list string) :=
  <[dirLabel := dismissed_for d dirLabel]> d.

Section Script.

Variable env : Env.

(** [fs.writeJSON(dismissedFile, dismissed)]. *)
Definition writeJSON_dismissed : M unit :=
  λ w, if writable env
       then (Ok tt, {| dismissed := dismissed w; disk := Some (dismissed w);
                       console := console w |})
       else (Throw WriteError, w).

(** Lines 21 to 29: read [dismissed.json], or create it holding [{}]. *)
Definition load_dismissed : M unit :=
  λ w, match disk w with
       | Some stored =>
           (Ok tt, {| dismissed := stored; disk := disk w;
                      console := console w |})
       | None =>
           writeJSON_dismissed
             {| dismissed := ∅; disk := disk w; console := console w |}
       end.

(** Lines 32 to 43. *)
Definition getGitTrackedFiles (targetDir : string) : M (list string) :=
  try_catch
    (let! stdout := lift_opt (git_ls_files env targetDir) ExecError in
     let files := tracked_lines stdout in
     ret (map (λ file, path_join targetDir file) files))
    (λ _, log ErrorFetchingFiles ;; ret []).

Definition summaryPath_of (targetDir relativePath : string) : string :=
  path_join (path_join targetDir summarySubDir)
            (relativePath +:+ ".summary.txt").

(** The callback of the loop of lines 55 to 71; the accumulator is the pair
    of [missingSummaries] and [outdatedSummaries]. *)
Definition classify_file (targetDir dirLabel : string)
    (acc : list string * list string) (file : string)
  : M (list string * list string) :=
  let relativePath := path_relative targetDir file in
  let summaryPath := summaryPath_of targetDir relativePath in
  if negb (existsSync env summaryPath) then
    ret (acc.1 ++ [relativePath], acc.2)
  else
    let! file_mtime := lift_opt (statSync_mtime env file) (StatError file) in
    let! summary_mtime :=
      lift_opt (statSync_mtime env summaryPath) (StatError summaryPath) in
    if Z.ltb summary_mtime file_mtime then
      let! d := get_dismissed in
      if negb (arr_includes (dismissed_for d dirLabel) relativePath) then
        ret (acc.1, acc.2 ++ [relativePath])
      else ret acc
    else ret acc.

(** Lines 106 to 115. *)
Definition apply_action (dirLabel : string) (action : Action)
    (missingSummaries outdatedSummaries : list string) : M unit :=
  match action with
  | UpdateSummaries => log PleaseUpdate
  | DismissAlerts =>
      let toDismiss := missingSummaries ++ outdatedSummaries in
      let! d := get_dismissed in
      set_dismissed (record_dismissals d dirLabel toDismiss) ;;
      writeJSON_dismissed ;;
      log (AlertsDismissed dirLabel)
  | IgnoreForNow => log AlertsIgnored
  end.

(** Lines 47 to 71: listing, line 53, and the classification loop. *)
Definition classification_pass (targetDir dirLabel : string)
  : M (list string * list string) :=
  let! allFiles := getGitTrackedFiles targetDir in
  let! d := get_dismissed in
  set_dismissed (ensure_record d dirLabel) ;;
  forEach (classify_file targetDir dirLabel) allFiles ([], []).

Definition is_empty (l : list string) : bool :=
  match l with
  | [] => true
  | _ :: _ => false
  end.

(** Lines 46 to 116. *)
Definition validateSummaries (targetDir dirLabel : string) : M unit :=
  let! lists := classification_pass targetDir dirLabel in
  let missingSummaries := lists.1 in
  let outdatedSummaries := lists.2 in
  if is_empty missingSummaries && is_empty outdatedSummaries then
    log (AllUpToDate dirLabel)
  else
    (if negb (is_empty missingSummaries)
     then log (MissingReport dirLabel missingSummaries) else ret tt) ;;
    (if negb (is_empty outdatedSummaries)
     then log (OutdatedReport dirLabel outdatedSummaries) else ret tt) ;;
    let action := prompt_action env dirLabel in
    apply_action dirLabel action missingSummaries outdatedSummaries.

(** Lines 132 to 134: the selected scopes, one after the other. *)
Fixpoint for_directories (directories : list (string * string)) : M unit :=
  match directories with
  | [] => ret tt
  | (dirPath, label) :: rest =>
      validateSummaries dirPath label ;; for_directories rest
  end.

(** The entry point with its [catch]: the exit status of the process. *)
Definition entry_point (directories : list (string * string))
  : World → Z * World :=
  λ w, match for_directories directories w with
       | (Ok _, w') => (0, w')
       | (Throw e, w') =>
           (1, {| dismissed := dismissed w'; disk := disk w';
                  console := console w' ++ [ErrorOccurred e] |})
       end.

End Script.

(** ** The classifier of the specification

    The script has no classification value: it pushes a path onto one of two
    arrays or onto none.  The specification (section 4.3) names the four
    outcomes; [classify] follows its words, on the observations of [Env],
    and the theorems below compare the arrays of the script with it. *)
Inductive Classification : Set :=
  | Missing
  | Stale
  | Current
  | Dismissed.

Definition classify (env : Env) (scopeRoot relativePath : string)
    (dismissalSet : list string) : Result Classification :=
  let artifact := summaryPath_of scopeRoot relativePath in
  let source := path_join scopeRoot relativePath in
  if existsSync env artifact then
    match statSync_mtime env source with
    | None => Throw (StatError source)
    | Some sourceModifiedTime =>
        match statSync_mtime env artifact with
        | None => Throw (StatError artifact)
        | Some artifactModifiedTime =>
            if Z.ltb artifactModifiedTime sourceModifiedTime then
              if arr_includes dismissalSet relativePath
              then Ok Dismissed else Ok Stale
            else Ok Current
        end
    end
  else Ok Missing.

Definition Classification_eqb (a b : Classification) : bool :=
  match a, b with
  | Missing, Missing | Stale, Stale | Current, Current
  | Dismissed, Dismissed => true
  | _, _ => false
  end.

Definition classified_as (c : Classification) (r : Result Classification)
  : bool :=
  match r with
  | Ok c' => Classification_eqb c c'
  | Throw _ => false
  end.

(** The metadata the loop reads for a tracked path can be read: where the
    artifact exists, [statSync] succeeds on the source and on the
    artifact. *)
Definition readable (env : Env) (scopeRoot relativePath : string) : bool :=
  negb (existsSync env (summaryPath_of scopeRoot relativePath))
  || (bool_decide (is_Some (statSync_mtime env
                              (path_join scopeRoot relativePath)))
      && bool_decide (is_Some (statSync_mtime env
                                 (summaryPath_of scopeRoot relativePath)))).

Definition all_readable (env : Env) (scopeRoot : string)
    (paths : list string) : bool :=
  forallb (readable env scopeRoot) paths.

(** The paths under audit for a scope: the kept lines of the listing, none
    when the listing fails. *)
Definition tracked (env : Env) (scopeRoot : string) : list string :=
  match git_ls_files env scopeRoot with
  | Some stdout => tracked_lines stdout
  | None => []
  end.

(** Two arrays hold the same set of paths. *)
Definition same_set (a b : list string) : Prop :=
  ∀ x, x ∈ a ↔ x ∈ b.

(** The two arrays a pass over [paths] ends with, in terms of [classify]:
    the paths classified [Missing] and those classified [Stale], in the
    order of [paths]. *)
Definition missing_of (env : Env) (scopeRoot : string)
    (dismissalSet paths : list string) : list string :=
  filter (λ p, classified_as Missing
                 (classify env scopeRoot p dismissalSet) = true) paths.

Definition stale_of (env : Env) (scopeRoot : string)
    (dismissalSet paths : list string) : list string :=
  filter (λ p, classified_as Stale
                 (classify env scopeRoot p dismissalSet) = true) paths.

(** The effect of one outcome on the two arrays. *)
Definition push (acc : list string * list string) (relativePath : string)
    (c : Classification) : list string * list string :=
  match c with
  | Missing => (acc.1 ++ [relativePath], acc.2)
  | Stale => (acc.1, acc.2 ++ [relativePath])
  | Current | Dismissed => acc
  end.

(** The loop as a function of the outcomes alone: it stops at the first
    path whose metadata cannot be read. *)
Fixpoint run_pass (env : Env) (scopeRoot : string)
    (dismissalSet paths : list string) (acc : list string * list string)
  : Result (list string * list string) :=
  match paths with
  | [] => Ok acc
  | p :: rest =>
      match classify env scopeRoot p dismissalSet with
      | Ok c => run_pass env scopeRoot dismissalSet rest (push acc p c)
      | Throw e => Throw e
      end
  end.

(** The world with more lines on the console. *)
Definition printed (w : World) (events : list Event) : World :=
  {| dismissed := dismissed w; disk := disk w;
     console := console w ++ events |}.

(** The world once the listing and line 53 have run for a scope. *)
Definition after_listing (env : Env) (targetDir dirLabel : string)
    (w : World) : World :=
  {| dismissed := ensure_record (dismissed w) dirLabel;
     disk := disk w;
     console := console w ++
       match git_ls_files env targetDir with
       | Some _ => []
       | None => [ErrorFetchingFiles]
       end |}.

(** The lines of 78 to 90 for the two arrays. *)
Definition reports (dirLabel : string)
    (missingSummaries outdatedSummaries : list string) : list Event :=
  (if is_empty missingSummaries then []
   else [MissingReport dirLabel missingSummaries])
  ++ (if is_empty outdatedSummaries then []
      else [OutdatedReport dirLabel outdatedSummaries]).

(** ** Two sentences of the specification the script does not follow *)

(** Section 4.2: a listing that cannot run makes the resolver fail with an
    error. *)
Definition enumeration_failure_is_an_error : Prop :=
  ∀ (env : Env) (targetDir : string) (w : World),
    git_ls_files env targetDir = None →
    ∃ e w', getGitTrackedFiles env targetDir w = (Throw e, w').

(** Section 7: an error of one scope's pass is caught for that scope and the
    run goes on with the remaining scopes. *)
Definition scope_errors_are_isolated : Prop :=
  ∀ (env : Env) (targetDir dirLabel : string)
    (rest : list (string * string)) (w w' : World) (e : Error),
    validateSummaries env targetDir dirLabel w = (Throw e, w') →
    ∃ w'', for_directories env ((targetDir, dirLabel) :: rest) w
           = for_directories env rest w''.

(** ** A small repository for the examples *)

Definition backend : string := "/repo/backend".
Definition frontend : string := "/repo/frontend".

Definition empty_world : World :=
  {| dismissed := ∅; disk := Some ∅; console := [] |}.

(** [a.txt] changed at 10 with a summary of 5, [b.txt] and its summary both
    of 7, [c.txt] without a summary, [d.txt] changed at 9 with a summary of
    2; the frontend has no tracked file. *)
Definition demo_stdout : string :=
  "a.txt" +:+ String newline ("b.txt" +:+ String newline
  ("c.txt" +:+ String newline ("d.txt" +:+ String newline EmptyString))).

(** The user has dismissed [d.txt] of the backend before. *)
Definition demo_world : World :=
  {| dismissed := {["Backend" := ["d.txt"]]};
     disk := Some {["Backend" := ["d.txt"]]};
     console := [] |}.

Definition demo_env (can_write : bool) (answer : Action) : Env :=
  {| git_ls_files := λ dir,
       if String.eqb dir backend then Some demo_stdout
       else if String.eqb dir frontend then Some EmptyString
       else None;
     existsSync := λ p,
       String.eqb p "/repo/backend/summary/a.txt.summary.txt"
       || String.eqb p "/repo/backend/summary/b.txt.summary.txt"
       || String.eqb p "/repo/backend/summary/d.txt.summary.txt";
     statSync_mtime := λ p,
       if String.eqb p "/repo/backend/a.txt" then Some 10
       else if String.eqb p "/repo/backend/summary/a.txt.summary.txt"
       then Some 5
       else if String.eqb p "/repo/backend/b.txt" then Some 7
       else if String.eqb p "/repo/backend/summary/b.txt.summary.txt"
       then Some 7
       else if String.eqb p "/repo/backend/c.txt" then Some 3
       else if String.eqb p "/repo/backend/d.txt" then Some 9
       else if String.eqb p "/repo/backend/summary/d.txt.summary.txt"
       then Some 2
       else None;
     writable := can_write;
     prompt_action := λ _, answer |}.

(** The backend's [a.txt] was deleted from the working tree but is still
    tracked, and its summary exists: [statSync] throws on it. *)
Definition broken_env : Env :=
  {| git_ls_files := λ dir,
       if String.eqb dir backend then Some "a.txt"
       else if String.eqb dir frontend then Some EmptyString
       else None;
     existsSync := λ p,
       String.eqb p "/repo/backend/summary/a.txt.summary.txt";
     statSync_mtime := λ p,
       if String.eqb p "/repo/backend/summary/a.txt.summary.txt"
       then Some 5 else None;
     writable := true;
     prompt_action := λ _, IgnoreForNow |}.

(** Neither scope root is under version control. *)
Definition no_git_env : Env :=
  {| git_ls_files := λ _, None;
     existsSync := λ _, false;
     statSync_mtime := λ _, None;
     writable := true;
     prompt_action := λ _, IgnoreForNow |}.

(** ** Memory and file

    The mapping in memory and the stored one hold the same set for every
    scope.  (Line 53 gives a scope without a record the empty array in
    memory only, so the two objects themselves may differ.) *)
Definition in_sync (w : World) : Prop :=
  ∃ stored, disk w = Some stored
            ∧ ∀ label, dismissed_for (dismissed w) label
                       = dismissed_for stored label.

(** The backend as in [demo_env], and a frontend with one file whose summary
    is missing. *)
Definition two_scope_env (can_write : bool) (answer : Action) : Env :=
  {| git_ls_files := λ dir,
       if String.eqb dir frontend then Some "app.js"
       else git_ls_files (demo_env can_write answer) dir;
     existsSync := existsSync (demo_env can_write answer);
     statSync_mtime := statSync_mtime (demo_env can_write answer);
     writable := can_write;
     prompt_action := λ _, answer |}.

(** * Properties *)

(** ** Strings *)

Lemma string_app_nil (s : string) : EmptyString +:+ s = s.
Proof. reflexivity. Qed.

Lemma string_app_cons (c : ascii) (a b : string) :
  String c a +:+ b = String c (a +:+ b).
Proof. reflexivity. Qed.

Ltac string_app :=
  repeat (rewrite string_app_nil in * || rewrite string_app_cons in * ).

Lemma app_assoc_string (a b c : string) : (a +:+ b) +:+ c = a +:+ b +:+ c.
Proof. induction a as [|x a IH]; string_app; [done | by f_equal]. Qed.

Lemma startsWith_spec (s p : string) :
  startsWith s p = true ↔ ∃ rest, s = p +:+ rest.
Proof.
  revert s. induction p as [|a p IH]; intros s; simpl.
  - split; [intros _; by exists s | done].
  - destruct s as [|b s]; simpl.
    + split; [done | by intros [rest ?]].
    + rewrite andb_true_iff, IH. split.
      * intros [Hab [rest ->]]. apply Ascii.eqb_eq in Hab as ->. by exists rest.
      * intros [rest Hrest]. string_app. injection Hrest as -> ->.
        split; [apply Ascii.eqb_refl | by exists rest].
Qed.

Lemma includes_spec (s sub : string) :
  includes s sub = true ↔ ∃ pre post, s = pre +:+ sub +:+ post.
Proof.
  induction s as [|c s IH]; simpl; rewrite orb_true_iff.
  - split.
    + intros [H|H]; [|done].
      apply startsWith_spec in H as [post H]. by exists EmptyString, post.
    + intros [pre [post H]]. left. apply startsWith_spec.
      destruct pre; string_app; [by exists post | done].
  - split.
    + intros [H|H].
      * apply startsWith_spec in H as [post H]. by exists EmptyString, post.
      * apply IH in H as [pre [post ->]]. by exists (String c pre), post.
    + intros [pre [post H]]. destruct pre as [|c' pre]; string_app.
      * left. apply startsWith_spec. by exists post.
      * right. apply IH. injection H as _ ->. by exists pre, post.
Qed.

Lemma truthy_spec (s : string) : truthy s = true ↔ s ≠ EmptyString.
Proof. by destruct s. Qed.

Lemma strip_prefix_app (p s : string) : strip_prefix p (p +:+ s) = Some s.
Proof.
  induction p as [|a p IH]; string_app; simpl; [by destruct s|].
  by rewrite Ascii.eqb_refl.
Qed.

(** [path.relative(targetDir, path.join(targetDir, file))] is [file]. *)
Lemma path_relative_join (dir file : string) :
  path_relative dir (path_join dir file) = file.
Proof.
  unfold path_relative, path_join.
  by rewrite <- app_assoc_string, strip_prefix_app.
Qed.

Lemma split_not_nil (sep : ascii) (s : string) : split sep s ≠ [].
Proof.
  induction s as [|c s IH]; simpl; [done|].
  destruct (Ascii.eqb c sep); [done|]. by destruct (split sep s).
Qed.

(** Joining the pieces with the separator gives the string back. *)
Lemma concat_split (sep : ascii) (s : string) :
  String.concat (String sep EmptyString) (split sep s) = s.
Proof.
  induction s as [|c s IH]; simpl; [done|].
  pose proof (split_not_nil sep s) as Hne.
  destruct (Ascii.eqb c sep) eqn:Hc.
  - apply Ascii.eqb_eq in Hc as ->.
    destruct (split sep s) as [|piece pieces]; [done|].
    change (String sep (String.concat (String sep EmptyString)
                          (piece :: pieces)) = String sep s).
    by rewrite IH.
  - destruct (split sep s) as [|piece pieces]; [done|].
    destruct pieces as [|piece' pieces]; simpl in *; string_app;
      by rewrite <- IH.
Qed.

(** No piece holds the separator. *)
Lemma split_no_sep (sep : ascii) (s piece : string) :
  piece ∈ split sep s → ∀ pre post, piece ≠ pre +:+ String sep post.
Proof.
  revert piece. induction s as [|c s IH]; intros piece; simpl.
  - intros ->%list_elem_of_singleton pre post. by destruct pre.
  - pose proof (split_not_nil sep s) as Hne.
    destruct (Ascii.eqb c sep) eqn:Hc.
    + intros [->|Hin]%elem_of_cons; [intros pre post; by destruct pre|].
      by apply IH.
    + destruct (split sep s) as [|first pieces]; [done|].
      intros [->|Hin]%elem_of_cons.
      * intros pre post. destruct pre as [|c' pre]; string_app.
        -- intros [= -> _]. by rewrite Ascii.eqb_refl in Hc.
        -- intros [= _ ->]. eapply IH; [left | done].
      * apply IH. by right.
Qed.

(** ** The insertion-ordered set *)

Lemma elem_of_Set_add (s : list string) (x y : string) :
  y ∈ Set_add s x ↔ y ∈ s ∨ y = x.
Proof.
  unfold Set_add, arr_includes. case_bool_decide as Hx.
  - split; [by left | intros [?| ->]; done].
  - rewrite elem_of_app, list_elem_of_singleton. done.
Qed.

Lemma NoDup_Set_add (s : list string) (x : string) :
  NoDup s → NoDup (Set_add s x).
Proof.
  intros Hs. unfold Set_add, arr_includes. case_bool_decide as Hx; [done|].
  apply NoDup_app. split_and!; [done | | apply NoDup_singleton].
  intros y Hy ->%list_elem_of_singleton. done.
Qed.

Lemma elem_of_foldl_Set_add (l s : list string) (y : string) :
  y ∈ foldl Set_add s l ↔ y ∈ s ∨ y ∈ l.
Proof.
  revert s. induction l as [|x l IH]; intros s; simpl.
  - rewrite elem_of_nil. tauto.
  - rewrite IH, elem_of_Set_add, elem_of_cons. tauto.
Qed.

Lemma NoDup_foldl_Set_add (l s : list string) :
  NoDup s → NoDup (foldl Set_add s l).
Proof.
  revert s. induction l as [|x l IH]; intros s Hs; simpl; [done|].
  by apply IH, NoDup_Set_add.
Qed.

Lemma foldl_Set_add_members (l s : list string) :
  (∀ x, x ∈ l → x ∈ s) → foldl Set_add s l = s.
Proof.
  revert s. induction l as [|x l IH]; intros s Hl; simpl; [done|].
  assert (Set_add s x = s) as ->.
  { unfold Set_add, arr_includes. rewrite bool_decide_eq_true_2; [done|].
    apply Hl. by left. }
  apply IH. intros y Hy. apply Hl. by right.
Qed.

Lemma foldl_Set_add_fresh (l s : list string) :
  NoDup (s ++ l) → foldl Set_add s l = s ++ l.
Proof.
  revert s. induction l as [|x l IH]; intros s Hnd; simpl.
  - by rewrite app_nil_r.
  - assert (Set_add s x = s ++ [x]) as ->.
    { unfold Set_add, arr_includes. rewrite bool_decide_eq_false_2; [done|].
      apply NoDup_app in Hnd as (_ & Hdisj & _). intros Hx.
      apply (Hdisj x Hx). by left. }
    rewrite IH; rewrite <- app_assoc; done.
Qed.

Lemma elem_of_Set_of (l : list string) (y : string) : y ∈ Set_of l ↔ y ∈ l.
Proof.
  unfold Set_of. rewrite elem_of_foldl_Set_add, elem_of_nil. tauto.
Qed.

Lemma NoDup_Set_of (l : list string) : NoDup (Set_of l).
Proof. apply NoDup_foldl_Set_add, NoDup_nil_2. Qed.

(** An array without repetition is the array of its own set. *)
Lemma Set_of_NoDup (l : list string) : NoDup l → Set_of l = l.
Proof. intros Hl. unfold Set_of. by rewrite foldl_Set_add_fresh. Qed.

Lemma Set_of_app (a b : list string) :
  Set_of (a ++ b) = foldl Set_add (Set_of a) b.
Proof. unfold Set_of. by rewrite foldl_app. Qed.

(** Adding again the paths a set was built from changes nothing. *)
Lemma Set_of_again (old paths : list string) :
  Set_of (Set_of (old ++ paths) ++ paths) = Set_of (old ++ paths).
Proof.
  rewrite Set_of_app, (Set_of_NoDup (Set_of _)) by apply NoDup_Set_of.
  apply foldl_Set_add_members. intros x Hx.
  apply elem_of_Set_of, elem_of_app. by right.
Qed.

(** ** The mapping *)

Lemma dismissed_for_ensure (d : gmap string (list string)) (l l' : string) :
  dismissed_for (ensure_record d l) l' = dismissed_for d l'.
Proof.
  unfold dismissed_for, ensure_record.
  destruct (decide (l = l')) as [->|Hne].
  - by rewrite lookup_insert_eq.
  - by rewrite lookup_insert_ne.
Qed.

Lemma dismissed_for_record_eq (d : gmap string (list string))
    (l : string) (paths : list string) :
  dismissed_for (record_dismissals d l paths) l
  = Set_of (dismissed_for d l ++ paths).
Proof. unfold dismissed_for at 1, record_dismissals. by rewrite lookup_insert_eq. Qed.

Lemma dismissed_for_record_ne (d : gmap string (list string))
    (l l' : string) (paths : list string) :
  l ≠ l' → dismissed_for (record_dismissals d l paths) l' = dismissed_for d l'.
Proof.
  intros Hne. unfold dismissed_for, record_dismissals.
  by rewrite lookup_insert_ne.
Qed.

Lemma elem_of_dismissed_for_record (d : gmap string (list string))
    (l : string) (paths : list string) (x : string) :
  x ∈ dismissed_for (record_dismissals d l paths) l
  ↔ x ∈ dismissed_for d l ∨ x ∈ paths.
Proof. by rewrite dismissed_for_record_eq, elem_of_Set_of, elem_of_app. Qed.

(** ** The classification loop *)

Section Pass.

Variable env : Env.
Variables targetDir dirLabel : string.

Lemma readable_classify (d : list string) (p : string) :
  readable env targetDir p = true ↔ ∃ c, classify env targetDir p d = Ok c.
Proof.
  unfold readable, classify.
  destruct (existsSync env _); simpl; [|split; eauto].
  destruct (statSync_mtime env (path_join _ _)) as [ts|]; simpl.
  - destruct (statSync_mtime env (summaryPath_of _ _)) as [ta|]; simpl.
    + split; [intros _|done].
      destruct (ta <? ts)%Z, (arr_includes d p); eauto.
    + split; [done | by intros [c ?]].
  - split; [done | by intros [c ?]].
Qed.

(** One call of the callback does to the arrays what the outcome of
    [classify] says, and leaves the world as it is. *)
Lemma classify_file_classify (acc : list string * list string)
    (p : string) (w : World) :
  classify_file env targetDir dirLabel acc (path_join targetDir p) w
  = (match classify env targetDir p (dismissed_for (dismissed w) dirLabel) with
     | Ok c => Ok (push acc p c)
     | Throw e => Throw e
     end, w).
Proof.
  unfold classify_file, classify. rewrite path_relative_join.
  destruct (existsSync env _); simpl; [|done].
  unfold bind, lift_opt.
  destruct (statSync_mtime env (path_join _ _)) as [ts|]; simpl; [|done].
  destruct (statSync_mtime env (summaryPath_of _ _)) as [ta|]; simpl; [|done].
  destruct (ta <? ts)%Z; simpl; [|done].
  by destruct (arr_includes _ p).
Qed.

Lemma forEach_run_pass (paths : list string)
    (acc : list string * list string) (w : World) :
  forEach (classify_file env targetDir dirLabel)
          (map (path_join targetDir) paths) acc w
  = (run_pass env targetDir (dismissed_for (dismissed w) dirLabel) paths acc,
     w).
Proof.
  revert acc. induction paths as [|p paths IH]; intros acc; simpl; [done|].
  unfold bind at 1. rewrite classify_file_classify.
  by destruct (classify env targetDir p _).
Qed.

Lemma forEach_readable (paths : list string)
    (acc : list string * list string) (w : World) :
  all_readable env targetDir paths = true →
  forEach (classify_file env targetDir dirLabel)
          (map (path_join targetDir) paths) acc w
  = (Ok (acc.1 ++ missing_of env targetDir
                    (dismissed_for (dismissed w) dirLabel) paths,
         acc.2 ++ stale_of env targetDir
                    (dismissed_for (dismissed w) dirLabel) paths), w).
Proof.
  revert acc. induction paths as [|p paths IH]; intros acc Hall; simpl.
  - unfold ret. rewrite !app_nil_r. by destruct acc.
  - simpl in Hall. apply andb_true_iff in Hall as [Hp Hall].
    unfold bind at 1. rewrite classify_file_classify.
    apply (readable_classify (dismissed_for (dismissed w) dirLabel)) in Hp
      as [c Hc].
    rewrite Hc, IH by done. unfold missing_of, stale_of.
    rewrite !filter_cons, Hc.
    destruct c; simpl; rewrite <- ?app_assoc; done.
Qed.

Lemma forEach_throws (before after : list string) (p : string)
    (acc : list string * list string) (w : World) (e : Error) :
  all_readable env targetDir before = true →
  classify env targetDir p (dismissed_for (dismissed w) dirLabel) = Throw e →
  forEach (classify_file env targetDir dirLabel)
          (map (path_join targetDir) (before ++ p :: after)) acc w
  = (Throw e, w).
Proof.
  revert acc. induction before as [|q before IH]; intros acc Hall Hp; simpl.
  - unfold bind. by rewrite classify_file_classify, Hp.
  - simpl in Hall. apply andb_true_iff in Hall as [Hq Hall].
    unfold bind at 1. rewrite classify_file_classify.
    apply (readable_classify (dismissed_for (dismissed w) dirLabel)) in Hq
      as [c Hc].
    rewrite Hc. by apply IH.
Qed.

Lemma getGitTrackedFiles_tracked (w : World) :
  getGitTrackedFiles env targetDir w
  = (Ok (map (path_join targetDir) (tracked env targetDir)),
     printed w match git_ls_files env targetDir with
               | Some _ => []
               | None => [ErrorFetchingFiles]
               end).
Proof.
  unfold getGitTrackedFiles, tracked, try_catch, bind, lift_opt, printed.
  destruct (git_ls_files env targetDir); simpl.
  - rewrite app_nil_r. by destruct w.
  - done.
Qed.

Lemma classification_pass_readable (w : World) :
  all_readable env targetDir (tracked env targetDir) = true →
  classification_pass env targetDir dirLabel w
  = (Ok (missing_of env targetDir (dismissed_for (dismissed w) dirLabel)
           (tracked env targetDir),
         stale_of env targetDir (dismissed_for (dismissed w) dirLabel)
           (tracked env targetDir)),
     after_listing env targetDir dirLabel w).
Proof.
  intros Hall. unfold classification_pass, bind at 1.
  rewrite getGitTrackedFiles_tracked. unfold bind, get_dismissed, set_dismissed.
  simpl. rewrite forEach_readable by done. simpl.
  by rewrite dismissed_for_ensure.
Qed.

Lemma classification_pass_throws (w : World)
    (before after : list string) (p : string) (e : Error) :
  tracked env targetDir = before ++ p :: after →
  all_readable env targetDir before = true →
  classify env targetDir p (dismissed_for (dismissed w) dirLabel) = Throw e →
  classification_pass env targetDir dirLabel w
  = (Throw e, after_listing env targetDir dirLabel w).
Proof.
  intros Htr Hall Hp. unfold classification_pass, bind at 1.
  rewrite getGitTrackedFiles_tracked. unfold bind, get_dismissed, set_dismissed.
  simpl. rewrite Htr. rewrite (forEach_throws _ _ _ _ _ e); [done..|].
  simpl. by rewrite dismissed_for_ensure.
Qed.

Lemma classification_pass_run_pass (w : World) :
  classification_pass env targetDir dirLabel w
  = (run_pass env targetDir (dismissed_for (dismissed w) dirLabel)
       (tracked env targetDir) ([], []),
     after_listing env targetDir dirLabel w).
Proof.
  unfold classification_pass, bind at 1.
  rewrite getGitTrackedFiles_tracked. unfold bind, get_dismissed, set_dismissed.
  simpl. rewrite forEach_run_pass. simpl. by rewrite dismissed_for_ensure.
Qed.

Lemma apply_action_update (ms os : list string) (w : World) :
  apply_action env dirLabel UpdateSummaries ms os w
  = (Ok tt, printed w [PleaseUpdate]).
Proof. done. Qed.

Lemma apply_action_ignore (ms os : list string) (w : World) :
  apply_action env dirLabel IgnoreForNow ms os w
  = (Ok tt, printed w [AlertsIgnored]).
Proof. done. Qed.

Lemma apply_action_dismiss (ms os : list string) (w : World) :
  apply_action env dirLabel DismissAlerts ms os w
  = if writable env
    then (Ok tt,
          {| dismissed := record_dismissals (dismissed w) dirLabel (ms ++ os);
             disk := Some (record_dismissals (dismissed w) dirLabel (ms ++ os));
             console := console w ++ [AlertsDismissed dirLabel] |})
    else (Throw WriteError,
          {| dismissed := record_dismissals (dismissed w) dirLabel (ms ++ os);
             disk := disk w;
             console := console w |}).
Proof.
  unfold apply_action, bind, get_dismissed, set_dismissed,
    writeJSON_dismissed, log.
  simpl. by destruct (writable env).
Qed.

(** What is on the console stays there. *)
Lemma apply_action_console (a : Action) (ms os : list string) (w : World)
    (ev : Event) :
  ev ∈ console w → ev ∈ console (apply_action env dirLabel a ms os w).2.
Proof.
  intros Hev. destruct a.
  - rewrite apply_action_update. simpl. apply elem_of_app. by left.
  - rewrite apply_action_dismiss. destruct (writable env); simpl; [|done].
    apply elem_of_app. by left.
  - rewrite apply_action_ignore. simpl. apply elem_of_app. by left.
Qed.

(** A pass whose metadata can all be read: either nothing to report, or the
    reports, the prompt and the chosen action. *)
Lemma validateSummaries_readable (w : World) :
  all_readable env targetDir (tracked env targetDir) = true →
  let ms := missing_of env targetDir (dismissed_for (dismissed w) dirLabel)
              (tracked env targetDir) in
  let os := stale_of env targetDir (dismissed_for (dismissed w) dirLabel)
              (tracked env targetDir) in
  validateSummaries env targetDir dirLabel w
  = if is_empty ms && is_empty os
    then (Ok tt, printed (after_listing env targetDir dirLabel w)
                   [AllUpToDate dirLabel])
    else apply_action env dirLabel (prompt_action env dirLabel) ms os
           (printed (after_listing env targetDir dirLabel w)
              (reports dirLabel ms os)).
Proof.
  intros Hall ms os. unfold validateSummaries, bind at 1.
  rewrite classification_pass_readable by done. fold ms os. simpl.
  destruct (is_empty ms && is_empty os) eqn:Hempty; [done|].
  unfold reports, printed.
  destruct (is_empty ms), (is_empty os); simpl; try done.
  unfold bind, log. simpl. by rewrite <- (app_assoc _ [_] [_]).
Qed.

Lemma validateSummaries_throws (w : World)
    (before after : list string) (p : string) (e : Error) :
  tracked env targetDir = before ++ p :: after →
  all_readable env targetDir before = true →
  classify env targetDir p (dismissed_for (dismissed w) dirLabel) = Throw e →
  validateSummaries env targetDir dirLabel w
  = (Throw e, after_listing env targetDir dirLabel w).
Proof.
  intros Htr Hall Hp. unfold validateSummaries, bind at 1.
  by rewrite (classification_pass_throws w before after p e).
Qed.

End Pass.

Lemma elem_of_missing_of (env : Env) (dir : string) (d paths : list string)
    (p : string) :
  p ∈ missing_of env dir d paths
  ↔ classify env dir p d = Ok Missing ∧ p ∈ paths.
Proof.
  unfold missing_of. rewrite list_elem_of_filter.
  split; intros [Hc Hp]; (split; [|done]).
  - by destruct (classify env dir p d) as [[]|].
  - by rewrite Hc.
Qed.

Lemma elem_of_stale_of (env : Env) (dir : string) (d paths : list string)
    (p : string) :
  p ∈ stale_of env dir d paths
  ↔ classify env dir p d = Ok Stale ∧ p ∈ paths.
Proof.
  unfold stale_of. rewrite list_elem_of_filter.
  split; intros [Hc Hp]; (split; [|done]).
  - by destruct (classify env dir p d) as [[]|].
  - by rewrite Hc.
Qed.

Lemma is_empty_false_elem (l : list string) (p : string) :
  p ∈ l → is_empty l = false.
Proof. destruct l; [by intros ?%elem_of_nil | done]. Qed.

(** The reports of a pass are on the console whatever the user answers. *)
Lemma validateSummaries_reports (env : Env) (dir label : string) (w : World)
    (ev : Event) :
  all_readable env dir (tracked env dir) = true →
  ev ∈ reports label
         (missing_of env dir (dismissed_for (dismissed w) label)
            (tracked env dir))
         (stale_of env dir (dismissed_for (dismissed w) label)
            (tracked env dir)) →
  ev ∈ console (validateSummaries env dir label w).2.
Proof.
  intros Hall Hev. rewrite validateSummaries_readable by done.
  destruct (is_empty _ && is_empty _) eqn:Hempty.
  - apply andb_true_iff in Hempty as [Hm Ho]. unfold reports in Hev.
    rewrite Hm, Ho in Hev. by apply elem_of_nil in Hev.
  - apply apply_action_console. simpl. apply elem_of_app. by right.
Qed.

(** ** The scenarios of the specification, run on the script *)

Example split_lines :
  split newline ("a.txt" +:+ String newline ("b.txt" +:+ String newline EmptyString))
  = ["a.txt"; "b.txt"; EmptyString].
Proof. reflexivity. Qed.

Example Set_of_keeps_first : Set_of ["a"; "b"; "a"; "c"; "b"] = ["a"; "b"; "c"].
Proof. reflexivity. Qed.

(** Scenarios A, B and E at once: [c.txt] has no summary, [a.txt] is newer
    than its summary, [b.txt] is as old as its summary. *)
Example pass_on_empty_store :
  (classification_pass (demo_env true IgnoreForNow) backend "Backend"
     empty_world).1
  = Ok (["c.txt"], ["a.txt"; "d.txt"]).
Proof. reflexivity. Qed.

(** Scenario C: [d.txt] is dismissed. *)
Example pass_on_dismissed :
  (classification_pass (demo_env true IgnoreForNow) backend "Backend"
     demo_world).1
  = Ok (["c.txt"], ["a.txt"]).
Proof. reflexivity. Qed.

(** Scenario D: after a dismissal nothing is outdated, the missing summary
    is still listed. *)
Example pass_after_dismissal :
  (classification_pass (demo_env true DismissAlerts) backend "Backend"
     (validateSummaries (demo_env true DismissAlerts) backend "Backend"
        demo_world).2).1
  = Ok (["c.txt"], []).
Proof. reflexivity. Qed.

Example console_of_a_pass :
  console (validateSummaries (demo_env true DismissAlerts) backend "Backend"
             demo_world).2
  = [MissingReport "Backend" ["c.txt"]; OutdatedReport "Backend" ["a.txt"];
     AlertsDismissed "Backend"].
Proof. reflexivity. Qed.

(** ** The claims *)

(** C9. The lines kept by the tracked-file filter are exactly the lines of
    the listing that are not empty, do not hold [node_modules] anywhere as a
    substring, and do not begin with [summary/]; [getGitTrackedFiles] returns
    them joined to the scope root.  So a file named
    [my_node_modules_notes.txt] is dropped, and a [summary] directory deeper
    in the tree is kept. *)
Theorem tracked_filter_exact (env : Env) (targetDir stdout : string)
    (w : World) :
  git_ls_files env targetDir = Some stdout →
  getGitTrackedFiles env targetDir w
  = (Ok (map (path_join targetDir) (tracked_lines stdout)), w)
  ∧ (∀ file,
       file ∈ tracked_lines stdout
       ↔ file ∈ split newline stdout
         ∧ file ≠ EmptyString
         ∧ (¬ ∃ pre post, file = pre +:+ "node_modules" +:+ post)
         ∧ (¬ ∃ rest, file = "summary/" +:+ rest))
  ∧ keep_line "my_node_modules_notes.txt" = false
  ∧ keep_line EmptyString = false
  ∧ keep_line "summary/a.txt.summary.txt" = false
  ∧ keep_line "src/summary/notes.txt" = true.
Proof.
  intros Hgit. split_and!; try reflexivity.
  - rewrite getGitTrackedFiles_tracked. unfold tracked, printed.
    rewrite Hgit, app_nil_r. by destruct w.
  - intros file. unfold tracked_lines, keep_line.
    rewrite list_elem_of_filter, !andb_true_iff, !negb_true_iff.
    rewrite truthy_spec, <- !not_true_iff_false.
    rewrite includes_spec, startsWith_spec. tauto.
Qed.

Lemma tracked_filter_exact_witness :
  getGitTrackedFiles (demo_env true IgnoreForNow) backend empty_world
  = (Ok ["/repo/backend/a.txt"; "/repo/backend/b.txt"; "/repo/backend/c.txt";
         "/repo/backend/d.txt"],
     empty_world).
Proof.
  pose proof (tracked_filter_exact (demo_env true IgnoreForNow) backend
                demo_stdout empty_world) as H.
  destruct H as [H _]; [reflexivity | exact H].
Defined.

(** C1. A tracked file whose summary exists, whose source is strictly newer
    than the summary and whose path is not in the scope's dismissal set is
    classified [Stale], is in the outdated array of the pass, and that array
    is reported on the console. *)
Theorem stale_is_reported (env : Env) (targetDir dirLabel : string)
    (w : World) (p : string) (source_mtime summary_mtime : Z) :
  all_readable env targetDir (tracked env targetDir) = true →
  p ∈ tracked env targetDir →
  existsSync env (summaryPath_of targetDir p) = true →
  statSync_mtime env (path_join targetDir p) = Some source_mtime →
  statSync_mtime env (summaryPath_of targetDir p) = Some summary_mtime →
  summary_mtime < source_mtime →
  p ∉ dismissed_for (dismissed w) dirLabel →
  classify env targetDir p (dismissed_for (dismissed w) dirLabel) = Ok Stale
  ∧ ∃ missingSummaries outdatedSummaries,
      (classification_pass env targetDir dirLabel w).1
      = Ok (missingSummaries, outdatedSummaries)
      ∧ p ∈ outdatedSummaries
      ∧ OutdatedReport dirLabel outdatedSummaries
        ∈ console (validateSummaries env targetDir dirLabel w).2.
Proof.
  intros Hall Hp Hex Hsrc Hsum Hlt Hnd.
  assert (classify env targetDir p (dismissed_for (dismissed w) dirLabel)
          = Ok Stale) as Hc.
  { unfold classify. rewrite Hex, Hsrc, Hsum.
    rewrite (proj2 (Z.ltb_lt _ _) Hlt). unfold arr_includes.
    by rewrite bool_decide_eq_false_2. }
  split; [done|].
  eexists _, _. rewrite classification_pass_readable by done.
  split; [reflexivity|].
  assert (p ∈ stale_of env targetDir (dismissed_for (dismissed w) dirLabel)
                (tracked env targetDir)) as Hin
    by by apply elem_of_stale_of.
  split; [done|].
  apply validateSummaries_reports; [done|].
  unfold reports. rewrite (is_empty_false_elem _ p Hin).
  apply elem_of_app. right. by left.
Qed.

(** C2. A tracked file whose summary exists with exactly the modification
    time of the source is classified [Current] and is in neither array of
    the pass. *)
Theorem equal_mtime_is_current (env : Env) (targetDir dirLabel : string)
    (w : World) (p : string) (mtime : Z) :
  all_readable env targetDir (tracked env targetDir) = true →
  p ∈ tracked env targetDir →
  existsSync env (summaryPath_of targetDir p) = true →
  statSync_mtime env (path_join targetDir p) = Some mtime →
  statSync_mtime env (summaryPath_of targetDir p) = Some mtime →
  classify env targetDir p (dismissed_for (dismissed w) dirLabel) = Ok Current
  ∧ ∃ missingSummaries outdatedSummaries,
      (classification_pass env targetDir dirLabel w).1
      = Ok (missingSummaries, outdatedSummaries)
      ∧ (p ∉ missingSummaries)
      ∧ (p ∉ outdatedSummaries).
Proof.
  intros Hall Hp Hex Hsrc Hsum.
  assert (classify env targetDir p (dismissed_for (dismissed w) dirLabel)
          = Ok Current) as Hc.
  { unfold classify. by rewrite Hex, Hsrc, Hsum, Z.ltb_irrefl. }
  split; [done|].
  eexists _, _. rewrite classification_pass_readable by done.
  split; [reflexivity|]. split.
  - rewrite elem_of_missing_of, Hc. by intros [[=] _].
  - rewrite elem_of_stale_of, Hc. by intros [[=] _].
Qed.

(** C4. A tracked file without a summary is classified [Missing] whatever
    the dismissal set holds, is in the missing array of the pass, and that
    array is reported on the console. *)
Theorem missing_is_reported (env : Env) (targetDir dirLabel : string)
    (w : World) (p : string) :
  all_readable env targetDir (tracked env targetDir) = true →
  p ∈ tracked env targetDir →
  existsSync env (summaryPath_of targetDir p) = false →
  (∀ dismissalSet, classify env targetDir p dismissalSet = Ok Missing)
  ∧ ∃ missingSummaries outdatedSummaries,
      (classification_pass env targetDir dirLabel w).1
      = Ok (missingSummaries, outdatedSummaries)
      ∧ p ∈ missingSummaries
      ∧ MissingReport dirLabel missingSummaries
        ∈ console (validateSummaries env targetDir dirLabel w).2.
Proof.
  intros Hall Hp Hex.
  assert (∀ d, classify env targetDir p d = Ok Missing) as Hc.
  { intros d. unfold classify. by rewrite Hex. }
  split; [done|].
  eexists _, _. rewrite classification_pass_readable by done.
  split; [reflexivity|].
  assert (p ∈ missing_of env targetDir (dismissed_for (dismissed w) dirLabel)
                (tracked env targetDir)) as Hin
    by by apply elem_of_missing_of.
  split; [done|].
  apply validateSummaries_reports; [done|].
  unfold reports. rewrite (is_empty_false_elem _ p Hin).
  apply elem_of_app. left. by left.
Qed.

Ltac in_list := apply list_elem_of_In; vm_compute; tauto.
Ltac not_in_list := rewrite list_elem_of_In; vm_compute; tauto.

Lemma stale_is_reported_witness :
  classify (demo_env true IgnoreForNow) backend "a.txt"
    (dismissed_for (dismissed empty_world) "Backend") = Ok Stale
  ∧ ∃ missingSummaries outdatedSummaries,
      (classification_pass (demo_env true IgnoreForNow) backend "Backend"
         empty_world).1
      = Ok (missingSummaries, outdatedSummaries)
      ∧ "a.txt" ∈ outdatedSummaries
      ∧ OutdatedReport "Backend" outdatedSummaries
        ∈ console (validateSummaries (demo_env true IgnoreForNow) backend
                     "Backend" empty_world).2.
Proof.
  apply (stale_is_reported (demo_env true IgnoreForNow) backend "Backend"
           empty_world "a.txt" 10 5).
  - reflexivity.
  - in_list.
  - reflexivity.
  - reflexivity.
  - reflexivity.
  - lia.
  - not_in_list.
Defined.

Lemma equal_mtime_is_current_witness :
  classify (demo_env true IgnoreForNow) backend "b.txt"
    (dismissed_for (dismissed empty_world) "Backend") = Ok Current
  ∧ ∃ missingSummaries outdatedSummaries,
      (classification_pass (demo_env true IgnoreForNow) backend "Backend"
         empty_world).1
      = Ok (missingSummaries, outdatedSummaries)
      ∧ ("b.txt" ∉ missingSummaries)
      ∧ ("b.txt" ∉ outdatedSummaries).
Proof.
  apply (equal_mtime_is_current (demo_env true IgnoreForNow) backend
           "Backend" empty_world "b.txt" 7).
  - reflexivity.
  - in_list.
  - reflexivity.
  - reflexivity.
  - reflexivity.
Defined.

Lemma missing_is_reported_witness :
  (∀ dismissalSet,
     classify (demo_env true IgnoreForNow) backend "c.txt" dismissalSet
     = Ok Missing)
  ∧ ∃ missingSummaries outdatedSummaries,
      (classification_pass (demo_env true IgnoreForNow) backend "Backend"
         {| dismissed := {["Backend" := ["c.txt"]]};
            disk := Some {["Backend" := ["c.txt"]]};
            console := [] |}).1
      = Ok (missingSummaries, outdatedSummaries)
      ∧ "c.txt" ∈ missingSummaries
      ∧ MissingReport "Backend" missingSummaries
        ∈ console (validateSummaries (demo_env true IgnoreForNow) backend
                     "Backend"
                     {| dismissed := {["Backend" := ["c.txt"]]};
                        disk := Some {["Backend" := ["c.txt"]]};
                        console := [] |}).2.
Proof.
  apply (missing_is_reported (demo_env true IgnoreForNow) backend "Backend"
           {| dismissed := {["Backend" := ["c.txt"]]};
              disk := Some {["Backend" := ["c.txt"]]};
              console := [] |} "c.txt").
  - reflexivity.
  - in_list.
  - reflexivity.
Defined.

(** ** Dismissals *)

Lemma stale_of_nil (env : Env) (dir : string) (d paths : list string) :
  (∀ p, p ∈ paths → classify env dir p d ≠ Ok Stale) →
  stale_of env dir d paths = [].
Proof.
  intros Hno. induction paths as [|p paths IH]; [done|].
  unfold stale_of. rewrite filter_cons.
  assert (classify env dir p d ≠ Ok Stale) as Hp by (apply Hno; by left).
  destruct (decide _) as [Hs|_].
  - destruct (classify env dir p d) as [[]|]; done.
  - apply IH. intros q Hq. apply Hno. by right.
Qed.

(** The dismissal set decides nothing about a missing summary. *)
Lemma missing_of_any_set (env : Env) (dir : string) (d d' paths : list string) :
  missing_of env dir d paths = missing_of env dir d' paths.
Proof.
  unfold missing_of. apply list_filter_iff. intros p.
  unfold classify.
  destruct (existsSync env _); [|done].
  destruct (statSync_mtime env (path_join _ _)) as [ts|]; [|done].
  destruct (statSync_mtime env (summaryPath_of _ _)) as [ta|]; [|done].
  destruct (ta <? ts)%Z; [|done].
  by destruct (arr_includes d p), (arr_includes d' p).
Qed.

(** A path classified [Stale] against a larger set was [Stale] against the
    smaller one. *)
Lemma classify_stale_smaller (env : Env) (dir p : string)
    (d d' : list string) :
  (∀ x, x ∈ d → x ∈ d') →
  classify env dir p d' = Ok Stale → classify env dir p d = Ok Stale.
Proof.
  intros Hsub. unfold classify.
  destruct (existsSync env _); [|done].
  destruct (statSync_mtime env (path_join _ _)) as [ts|]; [|done].
  destruct (statSync_mtime env (summaryPath_of _ _)) as [ta|]; [|done].
  destruct (ta <? ts)%Z; [|done].
  unfold arr_includes. do 2 case_bool_decide; try done.
  exfalso. eauto.
Qed.

Lemma classify_stale_not_dismissed (env : Env) (dir p : string)
    (d : list string) :
  classify env dir p d = Ok Stale → p ∉ d.
Proof.
  unfold classify.
  destruct (existsSync env _); [|done].
  destruct (statSync_mtime env (path_join _ _)) as [ts|]; [|done].
  destruct (statSync_mtime env (summaryPath_of _ _)) as [ta|]; [|done].
  destruct (ta <? ts)%Z; [|done].
  unfold arr_includes. by case_bool_decide.
Qed.

(** Once the outdated paths of a pass are in the set, nothing is stale
    against it. *)
Lemma stale_of_after_dismiss (env : Env) (dir : string)
    (d d' paths : list string) :
  (∀ x, x ∈ d → x ∈ d') →
  (∀ x, x ∈ stale_of env dir d paths → x ∈ d') →
  stale_of env dir d' paths = [].
Proof.
  intros Hsub Hstale. apply stale_of_nil. intros p Hp Hc.
  apply (classify_stale_not_dismissed env dir p d'); [done|].
  apply Hstale, elem_of_stale_of. split; [|done].
  by apply (classify_stale_smaller env dir p d d').
Qed.

Lemma is_empty_true (l : list string) : is_empty l = true ↔ l = [].
Proof. by destruct l. Qed.

(** The world after a pass with findings, answered with a dismissal that
    could be saved. *)
Lemma validateSummaries_dismiss (env : Env) (dir label : string) (w : World) :
  all_readable env dir (tracked env dir) = true →
  prompt_action env label = DismissAlerts →
  writable env = true →
  let d := dismissed_for (dismissed w) label in
  let ms := missing_of env dir d (tracked env dir) in
  let os := stale_of env dir d (tracked env dir) in
  is_empty ms && is_empty os = false →
  validateSummaries env dir label w
  = (Ok tt,
     {| dismissed :=
          record_dismissals (ensure_record (dismissed w) label) label
            (ms ++ os);
        disk :=
          Some (record_dismissals (ensure_record (dismissed w) label) label
                  (ms ++ os));
        console :=
          console (after_listing env dir label w) ++ reports label ms os
          ++ [AlertsDismissed label] |}).
Proof.
  intros Hall Hprompt Hw d ms os Hfind.
  rewrite validateSummaries_readable by done. fold d ms os.
  rewrite Hfind, Hprompt, apply_action_dismiss, Hw. simpl.
  by rewrite <- app_assoc.
Qed.

(** C3. A tracked file whose summary is strictly older than the source and
    whose path is in the scope's dismissal set is classified [Dismissed] and
    is not in the outdated array.  And when a pass with a stale finding is
    answered with a dismissal, a second pass over the same files has an empty
    outdated array, both in the same process and in a new process that loads
    [dismissed.json] first. *)
Theorem dismissed_is_suppressed (env : Env) (targetDir dirLabel : string)
    (w : World) :
  all_readable env targetDir (tracked env targetDir) = true →
  (∀ (p : string) (source_mtime summary_mtime : Z),
     p ∈ tracked env targetDir →
     existsSync env (summaryPath_of targetDir p) = true →
     statSync_mtime env (path_join targetDir p) = Some source_mtime →
     statSync_mtime env (summaryPath_of targetDir p) = Some summary_mtime →
     summary_mtime < source_mtime →
     p ∈ dismissed_for (dismissed w) dirLabel →
     classify env targetDir p (dismissed_for (dismissed w) dirLabel)
     = Ok Dismissed
     ∧ ∃ missingSummaries outdatedSummaries,
         (classification_pass env targetDir dirLabel w).1
         = Ok (missingSummaries, outdatedSummaries)
         ∧ (p ∉ outdatedSummaries))
  ∧ (prompt_action env dirLabel = DismissAlerts →
     writable env = true →
     stale_of env targetDir (dismissed_for (dismissed w) dirLabel)
       (tracked env targetDir) ≠ [] →
     let first := validateSummaries env targetDir dirLabel w in
     let missingSummaries :=
       missing_of env targetDir (dismissed_for (dismissed w) dirLabel)
         (tracked env targetDir) in
     first.1 = Ok tt
     ∧ (classification_pass env targetDir dirLabel first.2).1
       = Ok (missingSummaries, [])
     ∧ ∀ fresh : World,
         disk fresh = disk first.2 →
         (bind (load_dismissed env)
               (λ _, classification_pass env targetDir dirLabel) fresh).1
         = Ok (missingSummaries, [])).
Proof.
  intros Hall. split.
  - intros p ts ta Hp Hex Hsrc Hsum Hlt Hd.
    assert (classify env targetDir p (dismissed_for (dismissed w) dirLabel)
            = Ok Dismissed) as Hc.
    { unfold classify. rewrite Hex, Hsrc, Hsum.
      rewrite (proj2 (Z.ltb_lt _ _) Hlt). unfold arr_includes.
      by rewrite bool_decide_eq_true_2. }
    split; [done|].
    eexists _, _. rewrite classification_pass_readable by done.
    split; [reflexivity|].
    rewrite elem_of_stale_of, Hc. by intros [[=] _].
  - intros Hprompt Hw Hstale first ms.
    set (d := dismissed_for (dismissed w) dirLabel) in *.
    set (os := stale_of env targetDir d (tracked env targetDir)) in *.
    assert (is_empty ms && is_empty os = false) as Hfind.
    { apply andb_false_iff. right. apply not_true_iff_false.
      by rewrite is_empty_true. }
    pose proof (validateSummaries_dismiss env targetDir dirLabel w
                  Hall Hprompt Hw Hfind) as Hfirst.
    fold d ms os first in Hfirst.
    set (d' := dismissed_for
                 (record_dismissals (ensure_record (dismissed w) dirLabel)
                    dirLabel (ms ++ os)) dirLabel).
    assert (stale_of env targetDir d' (tracked env targetDir) = []) as Hnone.
    { apply (stale_of_after_dismiss env targetDir d).
      - intros x Hx. apply elem_of_dismissed_for_record. left.
        by rewrite dismissed_for_ensure.
      - intros x Hx. apply elem_of_dismissed_for_record. right.
        apply elem_of_app. by right. }
    rewrite Hfirst. simpl. split; [done|]. split.
    + rewrite classification_pass_readable by done. simpl. fold d'.
      by rewrite Hnone, (missing_of_any_set env targetDir d' d).
    + intros fresh Hdisk. unfold bind, load_dismissed. rewrite Hdisk.
      rewrite classification_pass_readable by done. simpl. fold d'.
      by rewrite Hnone, (missing_of_any_set env targetDir d' d).
Qed.

Lemma dismissed_is_suppressed_witness :
  let env := demo_env true DismissAlerts in
  (classify env backend "d.txt" (dismissed_for (dismissed demo_world) "Backend")
   = Ok Dismissed
   ∧ ∃ missingSummaries outdatedSummaries,
       (classification_pass env backend "Backend" demo_world).1
       = Ok (missingSummaries, outdatedSummaries)
       ∧ ("d.txt" ∉ outdatedSummaries))
  ∧ (let first := validateSummaries env backend "Backend" demo_world in
     let missingSummaries :=
       missing_of env backend (dismissed_for (dismissed demo_world) "Backend")
         (tracked env backend) in
     first.1 = Ok tt
     ∧ (classification_pass env backend "Backend" first.2).1
       = Ok (missingSummaries, [])
     ∧ ∀ fresh : World,
         disk fresh = disk first.2 →
         (bind (load_dismissed env)
               (λ _, classification_pass env backend "Backend") fresh).1
         = Ok (missingSummaries, [])).
Proof.
  intros env.
  destruct (dismissed_is_suppressed env backend "Backend" demo_world)
    as [Hsuppressed Hrerun]; [reflexivity|].
  split.
  - apply (Hsuppressed "d.txt" 9 2).
    + in_list.
    + reflexivity.
    + reflexivity.
    + reflexivity.
    + lia.
    + in_list.
  - apply Hrerun.
    + reflexivity.
    + reflexivity.
    + vm_compute. discriminate.
Defined.

(** A pass in general: it throws where the loop throws, and otherwise
    reports and applies the answer. *)
Lemma validateSummaries_run_pass (env : Env) (dir label : string) (w : World) :
  validateSummaries env dir label w
  = match run_pass env dir (dismissed_for (dismissed w) label)
            (tracked env dir) ([], []) with
    | Throw e => (Throw e, after_listing env dir label w)
    | Ok (ms, os) =>
        if is_empty ms && is_empty os
        then (Ok tt, printed (after_listing env dir label w)
                       [AllUpToDate label])
        else apply_action env label (prompt_action env label) ms os
               (printed (after_listing env dir label w) (reports label ms os))
    end.
Proof.
  unfold validateSummaries, bind at 1. rewrite classification_pass_run_pass.
  destruct (run_pass _ _ _ _ _) as [[ms os]|e]; [|done]. simpl.
  destruct (is_empty ms && is_empty os) eqn:Hempty; [done|].
  unfold reports, printed.
  destruct (is_empty ms), (is_empty os); simpl; try done.
  unfold bind, log. simpl. by rewrite <- (app_assoc _ [_] [_]).
Qed.

(** Dismissing paths that are all in an array without repetition leaves the
    array as it is. *)
Lemma Set_of_app_members (old paths : list string) :
  NoDup old → (∀ x, x ∈ paths → x ∈ old) → Set_of (old ++ paths) = old.
Proof.
  intros Hnd Hin. rewrite Set_of_app, Set_of_NoDup by done.
  by apply foldl_Set_add_members.
Qed.

Lemma record_dismissals_twice (d : gmap string (list string))
    (l : string) (paths : list string) :
  record_dismissals (record_dismissals d l paths) l paths
  = record_dismissals d l paths.
Proof.
  unfold record_dismissals at 1.
  rewrite dismissed_for_record_eq, Set_of_again.
  unfold record_dismissals. by rewrite insert_insert_eq.
Qed.

(** C5. Recording the same paths twice gives the mapping that recording
    them once gives, so the scope's array has the same length and no
    repetition; and recording paths that are all dismissed already leaves the
    scope's set as it is (and the array itself, when it has no repetition).
    The same holds for the decision as a whole: a second dismissal of the
    same findings changes neither the mapping in memory nor the stored
    one. *)
Theorem record_dismissals_idempotent (env : Env)
    (d : gmap string (list string)) (dirLabel : string)
    (paths : list string) :
  let once := record_dismissals d dirLabel paths in
  let twice := record_dismissals once dirLabel paths in
  twice = once
  ∧ length (dismissed_for twice dirLabel) = length (dismissed_for once dirLabel)
  ∧ NoDup (dismissed_for once dirLabel)
  ∧ ((∀ x, x ∈ paths → x ∈ dismissed_for d dirLabel) →
     same_set (dismissed_for once dirLabel) (dismissed_for d dirLabel)
     ∧ (NoDup (dismissed_for d dirLabel) →
        dismissed_for once dirLabel = dismissed_for d dirLabel))
  ∧ (∀ (missingSummaries outdatedSummaries : list string) (w : World),
       let first :=
         (apply_action env dirLabel DismissAlerts
            missingSummaries outdatedSummaries w).2 in
       let second :=
         (apply_action env dirLabel DismissAlerts
            missingSummaries outdatedSummaries first).2 in
       dismissed second = dismissed first ∧ disk second = disk first).
Proof.
  intros once twice.
  assert (twice = once) as Heq by apply record_dismissals_twice.
  split_and!.
  - done.
  - by rewrite Heq.
  - unfold once. rewrite dismissed_for_record_eq. apply NoDup_Set_of.
  - intros Hin. split.
    + intros x. unfold once. rewrite elem_of_dismissed_for_record.
      split; [intros [?|?]; auto | by left].
    + intros Hnd. unfold once.
      by rewrite dismissed_for_record_eq, Set_of_app_members.
  - intros ms os w first second. unfold second, first.
    rewrite !apply_action_dismiss.
    destruct (writable env); simpl; by rewrite !record_dismissals_twice.
Qed.

Lemma record_dismissals_idempotent_witness :
  let d : gmap string (list string) := {["Backend" := ["d.txt"; "a.txt"]]} in
  let once := record_dismissals d "Backend" ["a.txt"; "d.txt"] in
  same_set (dismissed_for once "Backend") (dismissed_for d "Backend")
  ∧ dismissed_for once "Backend" = ["d.txt"; "a.txt"].
Proof.
  intros d once.
  destruct (record_dismissals_idempotent (demo_env true DismissAlerts) d
              "Backend" ["a.txt"; "d.txt"])
    as (_ & _ & _ & Hsame & _).
  destruct Hsame as [Hset Hlist].
  - intros x Hx. apply list_elem_of_In in Hx. apply list_elem_of_In.
    vm_compute in Hx |- *. tauto.
  - split; [exact Hset|]. apply Hlist.
    apply NoDup_ListNoDup. vm_compute.
    repeat constructor; simpl; intuition discriminate.
Defined.

(** C6. A dismissal that can be saved makes the scope's set the union of its
    old members with the missing and the outdated paths, leaves the other
    scopes alone and stores the mapping at once; the other two answers
    change neither the mapping in memory nor the stored one.  For a whole
    pass: with such an answer the stored mapping and every scope's set are
    what they were, and a dismissal adds the paths of both arrays of that
    pass. *)
Theorem decision_effect (env : Env) (dirLabel : string)
    (missingSummaries outdatedSummaries : list string) (w : World) :
  (writable env = true →
   let after :=
     apply_action env dirLabel DismissAlerts
       missingSummaries outdatedSummaries w in
   after.1 = Ok tt
   ∧ (∀ x, x ∈ dismissed_for (dismissed after.2) dirLabel
           ↔ x ∈ dismissed_for (dismissed w) dirLabel
             ∨ x ∈ missingSummaries ∨ x ∈ outdatedSummaries)
   ∧ (∀ other, other ≠ dirLabel →
               dismissed after.2 !! other = dismissed w !! other)
   ∧ disk after.2 = Some (dismissed after.2))
  ∧ (∀ action, action ≠ DismissAlerts →
     let after :=
       apply_action env dirLabel action missingSummaries outdatedSummaries w in
     after.1 = Ok tt
     ∧ dismissed after.2 = dismissed w
     ∧ disk after.2 = disk w)
  ∧ (∀ targetDir, prompt_action env dirLabel ≠ DismissAlerts →
     let after := validateSummaries env targetDir dirLabel w in
     disk after.2 = disk w
     ∧ ∀ label, dismissed_for (dismissed after.2) label
                = dismissed_for (dismissed w) label)
  ∧ (∀ targetDir,
     all_readable env targetDir (tracked env targetDir) = true →
     prompt_action env dirLabel = DismissAlerts →
     writable env = true →
     let ms := missing_of env targetDir (dismissed_for (dismissed w) dirLabel)
                 (tracked env targetDir) in
     let os := stale_of env targetDir (dismissed_for (dismissed w) dirLabel)
                 (tracked env targetDir) in
     is_empty ms && is_empty os = false →
     let after := validateSummaries env targetDir dirLabel w in
     after.1 = Ok tt
     ∧ (∀ x, x ∈ dismissed_for (dismissed after.2) dirLabel
             ↔ x ∈ dismissed_for (dismissed w) dirLabel ∨ x ∈ ms ∨ x ∈ os)
     ∧ disk after.2 = Some (dismissed after.2)).
Proof.
  split_and!.
  - intros Hw after. unfold after. rewrite apply_action_dismiss, Hw. simpl.
    split_and!; [done | | | done].
    + intros x. by rewrite elem_of_dismissed_for_record, elem_of_app.
    + intros other Hne. unfold record_dismissals. by rewrite lookup_insert_ne.
  - intros action Hne after. unfold after. by destruct action.
  - intros targetDir Hne after. unfold after.
    rewrite validateSummaries_run_pass.
    destruct (run_pass _ _ _ _ _) as [[ms os]|e]; simpl.
    + destruct (is_empty ms && is_empty os); simpl.
      * split; [done|]. intros label. apply dismissed_for_ensure.
      * destruct (prompt_action env dirLabel); [|done|]; simpl;
          (split; [done|]); intros label; apply dismissed_for_ensure.
    + split; [done|]. intros label. apply dismissed_for_ensure.
  - intros targetDir Hall Hprompt Hw ms os Hfind after. unfold after.
    rewrite (validateSummaries_dismiss env targetDir dirLabel w
               Hall Hprompt Hw Hfind).
    simpl. split_and!; [done | | done].
    intros x. fold ms os.
    by rewrite elem_of_dismissed_for_record, dismissed_for_ensure, elem_of_app.
Qed.

Lemma decision_effect_witness :
  (let after := validateSummaries (demo_env true DismissAlerts) backend
                  "Backend" demo_world in
   after.1 = Ok tt
   ∧ dismissed_for (dismissed after.2) "Backend" = ["d.txt"; "c.txt"; "a.txt"]
   ∧ disk after.2 = Some (dismissed after.2))
  ∧ (let after := validateSummaries (demo_env true IgnoreForNow) backend
                    "Backend" demo_world in
     disk after.2 = disk demo_world
     ∧ ∀ label, dismissed_for (dismissed after.2) label
                = dismissed_for (dismissed demo_world) label).
Proof.
  split.
  - destruct (decision_effect (demo_env true DismissAlerts) "Backend"
                ["c.txt"] ["a.txt"] demo_world) as (_ & _ & _ & Hpass).
    destruct (Hpass backend) as (Hok & _ & Hdisk);
      [reflexivity | reflexivity | reflexivity | reflexivity |].
    split; [exact Hok|]. split; [reflexivity | exact Hdisk].
  - destruct (decision_effect (demo_env true IgnoreForNow) "Backend"
                ["c.txt"] ["a.txt"] demo_world) as (_ & _ & Hpass & _).
    apply (Hpass backend). discriminate.
Defined.

(** ** Errors *)

(** C7, as the script has it.  When the listing cannot run, the resolver
    prints the error and returns the empty array; the scope's pass then
    classifies nothing, prints that all summaries are up to date, asks for no
    decision and stores nothing, and the run goes on with the next scope. *)
Theorem enumeration_failure_reports_up_to_date (env : Env)
    (targetDir dirLabel : string) (rest : list (string * string))
    (w : World) :
  git_ls_files env targetDir = None →
  getGitTrackedFiles env targetDir w = (Ok [], printed w [ErrorFetchingFiles])
  ∧ validateSummaries env targetDir dirLabel w
    = (Ok tt,
       {| dismissed := ensure_record (dismissed w) dirLabel;
          disk := disk w;
          console := console w ++ [ErrorFetchingFiles; AllUpToDate dirLabel] |})
  ∧ for_directories env ((targetDir, dirLabel) :: rest) w
    = for_directories env rest
        {| dismissed := ensure_record (dismissed w) dirLabel;
           disk := disk w;
           console := console w ++ [ErrorFetchingFiles; AllUpToDate dirLabel] |}.
Proof.
  intros Hgit.
  assert (tracked env targetDir = []) as Htr
    by (unfold tracked; by rewrite Hgit).
  assert (validateSummaries env targetDir dirLabel w
          = (Ok tt,
             {| dismissed := ensure_record (dismissed w) dirLabel;
                disk := disk w;
                console := console w
                           ++ [ErrorFetchingFiles; AllUpToDate dirLabel] |}))
    as Hpass.
  { rewrite validateSummaries_run_pass, Htr. simpl.
    unfold printed, after_listing. rewrite Hgit. simpl.
    by rewrite <- app_assoc. }
  split_and!.
  - rewrite getGitTrackedFiles_tracked. by rewrite Htr, Hgit.
  - done.
  - simpl. unfold bind at 1. by rewrite Hpass.
Qed.

Lemma enumeration_failure_reports_up_to_date_witness :
  entry_point no_git_env [(backend, "Backend"); (frontend, "Frontend")]
    empty_world
  = (0, (for_directories no_git_env [(frontend, "Frontend")]
           {| dismissed := ensure_record ∅ "Backend";
              disk := Some ∅;
              console := [ErrorFetchingFiles; AllUpToDate "Backend"] |}).2).
Proof.
  destruct (enumeration_failure_reports_up_to_date no_git_env backend
              "Backend" [(frontend, "Frontend")] empty_world)
    as (_ & _ & Hrun); [reflexivity|].
  unfold entry_point. rewrite Hrun. reflexivity.
Defined.

(** C7, as the specification has it, fails: with no scope root under version
    control the resolver returns an empty array instead of failing, and the
    pass prints that all summaries are up to date. *)
Lemma enumeration_failure_is_swallowed :
  getGitTrackedFiles no_git_env backend empty_world
  = (Ok [], printed empty_world [ErrorFetchingFiles])
  ∧ (validateSummaries no_git_env backend "Backend" empty_world).1 = Ok tt
  ∧ console (validateSummaries no_git_env backend "Backend" empty_world).2
    = [ErrorFetchingFiles; AllUpToDate "Backend"]
  ∧ ¬ enumeration_failure_is_an_error.
Proof.
  split_and!; try reflexivity.
  intros Hclaim.
  destruct (Hclaim no_git_env backend empty_world eq_refl)
    as [e [w' Hthrow]].
  vm_compute in Hthrow. discriminate.
Qed.

(** C8, as the script has it.  A tracked file whose metadata cannot be read
    makes the scope's pass throw; so does a dismissal that cannot be saved;
    and whatever a scope's pass throws leaves the scope loop: the entry point
    prints it and exits with status 1, and the scopes after it are not
    audited, whichever they are. *)
Theorem scope_error_exits_with_1 (env : Env) (targetDir dirLabel : string)
    (w : World) :
  (∀ (before after : list string) (p : string) (e : Error),
     tracked env targetDir = before ++ p :: after →
     all_readable env targetDir before = true →
     classify env targetDir p (dismissed_for (dismissed w) dirLabel)
     = Throw e →
     validateSummaries env targetDir dirLabel w
     = (Throw e, after_listing env targetDir dirLabel w))
  ∧ (all_readable env targetDir (tracked env targetDir) = true →
     prompt_action env dirLabel = DismissAlerts →
     writable env = false →
     is_empty (missing_of env targetDir (dismissed_for (dismissed w) dirLabel)
                 (tracked env targetDir))
     && is_empty (stale_of env targetDir
                    (dismissed_for (dismissed w) dirLabel)
                    (tracked env targetDir)) = false →
     (validateSummaries env targetDir dirLabel w).1 = Throw WriteError)
  ∧ (∀ (earlier rest : list (string * string)) (w0 w' : World) (e : Error),
     for_directories env earlier w0 = (Ok tt, w) →
     validateSummaries env targetDir dirLabel w = (Throw e, w') →
     entry_point env (earlier ++ (targetDir, dirLabel) :: rest) w0
     = (1, printed w' [ErrorOccurred e])).
Proof.
  split_and!.
  - intros before after p e Htr Hall Hp.
    by apply (validateSummaries_throws env targetDir dirLabel w before after p).
  - intros Hall Hprompt Hw Hfind.
    rewrite validateSummaries_readable by done.
    by rewrite Hfind, Hprompt, apply_action_dismiss, Hw.
  - intros earlier rest w0 w' e Hearlier Hthrow.
    assert (for_directories env (earlier ++ (targetDir, dirLabel) :: rest) w0
            = (Throw e, w')) as Hrun.
    { revert w0 Hearlier.
      induction earlier as [|[dir label] earlier IH]; intros w0 Hearlier.
      - simpl in Hearlier. injection Hearlier as ->.
        simpl. unfold bind at 1. by rewrite Hthrow.
      - simpl in *. unfold bind at 1. unfold bind at 1 in Hearlier.
        destruct (validateSummaries env dir label w0) as [[[]|e0] w1];
          [|done].
        by apply IH. }
    unfold entry_point. by rewrite Hrun.
Qed.

Lemma scope_error_exits_with_1_witness :
  validateSummaries broken_env backend "Backend" empty_world
  = (Throw (StatError "/repo/backend/a.txt"),
     after_listing broken_env backend "Backend" empty_world)
  ∧ entry_point broken_env [(backend, "Backend"); (frontend, "Frontend")]
      empty_world
    = (1, printed (after_listing broken_env backend "Backend" empty_world)
            [ErrorOccurred (StatError "/repo/backend/a.txt")])
  ∧ (validateSummaries (demo_env false DismissAlerts) backend "Backend"
       empty_world).1
    = Throw WriteError.
Proof.
  destruct (scope_error_exits_with_1 broken_env backend "Backend" empty_world)
    as (Hstat & _ & Hexit).
  assert (validateSummaries broken_env backend "Backend" empty_world
          = (Throw (StatError "/repo/backend/a.txt"),
             after_listing broken_env backend "Backend" empty_world))
    as Hthrow.
  { apply (Hstat [] [] "a.txt"); reflexivity. }
  split_and!.
  - exact Hthrow.
  - apply (Hexit [] [(frontend, "Frontend")] empty_world).
    + reflexivity.
    + exact Hthrow.
  - destruct (scope_error_exits_with_1 (demo_env false DismissAlerts) backend
                "Backend" empty_world) as (_ & Hwrite & _).
    apply Hwrite; reflexivity.
Defined.

(** A scope without tracked files is reported as up to date. *)
Lemma validateSummaries_no_files (env : Env) (dir label : string) (w : World) :
  tracked env dir = [] →
  validateSummaries env dir label w
  = (Ok tt, printed (after_listing env dir label w) [AllUpToDate label]).
Proof. intros Htr. by rewrite validateSummaries_run_pass, Htr. Qed.

(** C8, as the specification has it, fails: the backend's pass throws on a
    file it cannot stat, the run ends with status 1 and the frontend, which
    alone would be reported as up to date, is never audited. *)
Lemma scope_error_aborts_run :
  (entry_point broken_env [(backend, "Backend"); (frontend, "Frontend")]
     empty_world).1 = 1
  ∧ console (entry_point broken_env
               [(backend, "Backend"); (frontend, "Frontend")] empty_world).2
    = [ErrorOccurred (StatError "/repo/backend/a.txt")]
  ∧ entry_point broken_env [(frontend, "Frontend")] empty_world
    = (0, printed (after_listing broken_env frontend "Frontend" empty_world)
            [AllUpToDate "Frontend"])
  ∧ ¬ scope_errors_are_isolated.
Proof.
  split_and!; try reflexivity.
  intros Hclaim.
  assert (validateSummaries broken_env backend "Backend" empty_world
          = (Throw (StatError "/repo/backend/a.txt"),
             after_listing broken_env backend "Backend" empty_world))
    as Hthrow.
  { apply (validateSummaries_throws _ _ _ _ [] [] "a.txt"); reflexivity. }
  destruct (Hclaim broken_env backend "Backend" [(frontend, "Frontend")]
              empty_world _ _ Hthrow) as [w'' Hrun].
  simpl in Hrun. unfold bind at 1 in Hrun. rewrite Hthrow in Hrun.
  unfold bind in Hrun.
  rewrite (validateSummaries_no_files broken_env frontend "Frontend" w'')
    in Hrun by reflexivity.
  discriminate.
Qed.

(** ** Determinism *)

Lemma arr_includes_same_set (a b : list string) (x : string) :
  same_set a b → arr_includes a x = arr_includes b x.
Proof. intros Hab. unfold arr_includes. apply bool_decide_ext, Hab. Qed.

Lemma classify_agree (env1 env2 : Env) (dir p : string) (d1 d2 : list string) :
  existsSync env1 (summaryPath_of dir p) = existsSync env2 (summaryPath_of dir p) →
  statSync_mtime env1 (path_join dir p) = statSync_mtime env2 (path_join dir p) →
  statSync_mtime env1 (summaryPath_of dir p)
  = statSync_mtime env2 (summaryPath_of dir p) →
  same_set d1 d2 →
  classify env1 dir p d1 = classify env2 dir p d2.
Proof.
  intros Hex Hsrc Hsum Hd. unfold classify.
  by rewrite Hex, Hsrc, Hsum, (arr_includes_same_set d1 d2 p Hd).
Qed.

Lemma run_pass_agree (env1 env2 : Env) (dir : string) (d1 d2 : list string)
    (paths : list string) (acc : list string * list string) :
  (∀ p, p ∈ paths → classify env1 dir p d1 = classify env2 dir p d2) →
  run_pass env1 dir d1 paths acc = run_pass env2 dir d2 paths acc.
Proof.
  revert acc. induction paths as [|p paths IH]; intros acc Hall; simpl; [done|].
  rewrite <- (Hall p) by by left.
  destruct (classify env1 dir p d1); [|done].
  apply IH. intros q Hq. apply Hall. by right.
Qed.

(** The arrays of a pass that returns are the two filters of the tracked
    paths. *)
Lemma run_pass_filters (env : Env) (dir : string) (d paths : list string)
    (acc r : list string * list string) :
  run_pass env dir d paths acc = Ok r →
  r = (acc.1 ++ missing_of env dir d paths, acc.2 ++ stale_of env dir d paths).
Proof.
  revert acc. induction paths as [|p paths IH]; intros acc; simpl.
  - intros [= <-]. rewrite !app_nil_r. by destruct acc.
  - destruct (classify env dir p d) as [c|e] eqn:Hc; [|done].
    intros Hr. apply IH in Hr as ->. unfold missing_of, stale_of.
    rewrite !filter_cons, Hc.
    destruct c; simpl; rewrite <- ?app_assoc; done.
Qed.

(** C10. Two passes over the same listing that see the same existence of
    summaries and the same modification times for the tracked paths, with
    the same dismissal set for the scope, end with the same two arrays (or
    throw the same error), whatever else differs between the two
    environments and worlds; and the arrays list their paths in the order of
    the listing. *)
Theorem classification_is_deterministic (env1 env2 : Env)
    (targetDir dirLabel : string) (w1 w2 : World) :
  git_ls_files env1 targetDir = git_ls_files env2 targetDir →
  (∀ p, p ∈ tracked env1 targetDir →
        existsSync env1 (summaryPath_of targetDir p)
        = existsSync env2 (summaryPath_of targetDir p)
        ∧ statSync_mtime env1 (path_join targetDir p)
          = statSync_mtime env2 (path_join targetDir p)
        ∧ statSync_mtime env1 (summaryPath_of targetDir p)
          = statSync_mtime env2 (summaryPath_of targetDir p)) →
  same_set (dismissed_for (dismissed w1) dirLabel)
           (dismissed_for (dismissed w2) dirLabel) →
  (classification_pass env1 targetDir dirLabel w1).1
  = (classification_pass env2 targetDir dirLabel w2).1
  ∧ ∀ missingSummaries outdatedSummaries,
      (classification_pass env1 targetDir dirLabel w1).1
      = Ok (missingSummaries, outdatedSummaries) →
      missingSummaries `sublist_of` tracked env1 targetDir
      ∧ outdatedSummaries `sublist_of` tracked env1 targetDir.
Proof.
  intros Hgit Hfs Hd. rewrite !classification_pass_run_pass. simpl.
  assert (tracked env2 targetDir = tracked env1 targetDir) as Htr
    by (unfold tracked; by rewrite Hgit).
  split.
  - rewrite Htr. apply run_pass_agree. intros p Hp.
    destruct (Hfs p Hp) as (Hex & Hsrc & Hsum). by apply classify_agree.
  - intros ms os Hrun. apply run_pass_filters in Hrun. simpl in Hrun.
    injection Hrun as -> ->. split; apply sublist_filter.
Qed.

Lemma classification_is_deterministic_witness :
  let w2 := {| dismissed := {["Backend" := ["d.txt"; "d.txt"]]};
               disk := None;
               console := [AlertsIgnored] |} in
  (classification_pass (demo_env true IgnoreForNow) backend "Backend"
     demo_world).1
  = (classification_pass (demo_env false DismissAlerts) backend "Backend"
       w2).1.
Proof.
  intros w2.
  destruct (classification_is_deterministic (demo_env true IgnoreForNow)
              (demo_env false DismissAlerts) backend "Backend" demo_world w2)
    as [Hsame _].
  - reflexivity.
  - intros p _. repeat split.
  - intros x. rewrite !list_elem_of_In. vm_compute. tauto.
  - exact Hsame.
Defined.

(** * Further properties of the script *)

(** ** The listing *)

Lemma split_app (sep : ascii) (a b : string) :
  split sep (a +:+ String sep b) = split sep a ++ split sep b.
Proof.
  induction a as [|c a IH]; string_app; simpl.
  - by rewrite Ascii.eqb_refl.
  - rewrite IH. pose proof (split_not_nil sep a) as Hne.
    destruct (Ascii.eqb c sep); [done|].
    by destruct (split sep a).
Qed.

(** X1. The kept lines of two listings put one after the other, with a
    newline between them, are the kept lines of the first followed by those
    of the second; so the newline that ends the output of [git ls-files],
    and any blank line, adds no tracked file. *)
Theorem tracked_lines_app (a b : string) :
  tracked_lines (a +:+ String newline b) = tracked_lines a ++ tracked_lines b
  ∧ tracked_lines (a +:+ String newline EmptyString) = tracked_lines a
  ∧ tracked_lines (a +:+ String newline (String newline b))
    = tracked_lines a ++ tracked_lines b.
Proof.
  assert (∀ x y, tracked_lines (x +:+ String newline y)
                 = tracked_lines x ++ tracked_lines y) as Happ.
  { intros x y. unfold tracked_lines. by rewrite split_app, filter_app. }
  split_and!.
  - apply Happ.
  - rewrite Happ. apply app_nil_r.
  - rewrite Happ. by f_equal.
Qed.

Lemma path_join_inj (dir a b : string) :
  path_join dir a = path_join dir b → a = b.
Proof.
  unfold path_join. intros H.
  apply (inj (String.app dir)) in H. by apply (inj (String.app "/")) in H.
Qed.

Lemma summaryPath_of_join (dir p : string) :
  summaryPath_of dir p
  = path_join dir ("summary/" +:+ p +:+ ".summary.txt").
Proof.
  unfold summaryPath_of, path_join, summarySubDir.
  by rewrite !app_assoc_string.
Qed.

(** X2. Whatever [getGitTrackedFiles] returns is the scope root joined to a
    line of the listing that is not empty and holds no newline, [relative]
    gives that line back, and the file is not the summary path of any
    relative path: the script never audits a summary as a source file. *)
Theorem tracked_files_are_not_summaries (env : Env) (targetDir : string)
    (w : World) (file : string) :
  file ∈ match (getGitTrackedFiles env targetDir w).1 with
         | Ok files => files
         | Throw _ => []
         end →
  (∃ line, file = path_join targetDir line
           ∧ path_relative targetDir file = line
           ∧ line ∈ tracked env targetDir
           ∧ line ≠ EmptyString
           ∧ ∀ pre post, line ≠ pre +:+ String newline post)
  ∧ ∀ relativePath, file ≠ summaryPath_of targetDir relativePath.
Proof.
  rewrite getGitTrackedFiles_tracked. simpl.
  intros (line & -> & Hline)%list_elem_of_fmap.
  assert (keep_line line = true
          ∧ ∀ pre post, line ≠ pre +:+ String newline post) as [Hkeep Hnl].
  { unfold tracked in Hline.
    destruct (git_ls_files env targetDir) as [stdout|];
      [|by apply elem_of_nil in Hline].
    unfold tracked_lines in Hline.
    apply list_elem_of_filter in Hline as [Hkeep Hin].
    split; [done|]. by apply (split_no_sep newline stdout). }
  unfold keep_line in Hkeep.
  apply andb_true_iff in Hkeep as [Hkeep Hsum].
  apply andb_true_iff in Hkeep as [Htruthy _].
  split.
  - exists line. rewrite path_relative_join.
    split_and!; try done. by apply truthy_spec.
  - intros q Heq. rewrite summaryPath_of_join in Heq.
    apply path_join_inj in Heq. apply negb_true_iff in Hsum.
    apply not_true_iff_false in Hsum. apply Hsum, startsWith_spec.
    by exists (q +:+ ".summary.txt").
Qed.

Lemma tracked_files_are_not_summaries_witness :
  (∃ line, "/repo/backend/a.txt" = path_join backend line
           ∧ path_relative backend "/repo/backend/a.txt" = line
           ∧ line ∈ tracked (demo_env true IgnoreForNow) backend
           ∧ line ≠ EmptyString
           ∧ ∀ pre post, line ≠ pre +:+ String newline post)
  ∧ ∀ relativePath,
      "/repo/backend/a.txt" ≠ summaryPath_of backend relativePath.
Proof.
  apply (tracked_files_are_not_summaries (demo_env true IgnoreForNow) backend
           empty_world "/repo/backend/a.txt").
  in_list.
Defined.

(** ** The two arrays *)

Lemma run_pass_ok_readable (env : Env) (dir : string) (d paths : list string)
    (acc : list string * list string) :
  (∃ r, run_pass env dir d paths acc = Ok r) ↔ all_readable env dir paths = true.
Proof.
  revert acc. induction paths as [|p paths IH]; intros acc; simpl.
  - split; [done | by eexists].
  - rewrite andb_true_iff, (readable_classify env dir d p).
    destruct (classify env dir p d) as [c|e].
    + rewrite IH. split; [intros ?; split; [by eexists | done] | by intros [_ ?]].
    + split; [by intros [r ?] | by intros [[c ?] _]].
Qed.

(** X3. The loop returns its two arrays exactly when the metadata of every
    tracked file with a summary can be read (otherwise it throws and there
    is no partial result); no path is in both arrays, both hold tracked paths
    only, and neither repeats a path when the listing repeats none. *)
Theorem pass_arrays (env : Env) (targetDir dirLabel : string) (w : World) :
  ((∃ arrays, (classification_pass env targetDir dirLabel w).1 = Ok arrays)
   ↔ all_readable env targetDir (tracked env targetDir) = true)
  ∧ ∀ missingSummaries outdatedSummaries,
      (classification_pass env targetDir dirLabel w).1
      = Ok (missingSummaries, outdatedSummaries) →
      (∀ p, p ∈ missingSummaries → p ∉ outdatedSummaries)
      ∧ (∀ p, p ∈ missingSummaries ∨ p ∈ outdatedSummaries →
              p ∈ tracked env targetDir)
      ∧ (NoDup (tracked env targetDir) →
         NoDup missingSummaries ∧ NoDup outdatedSummaries).
Proof.
  rewrite classification_pass_run_pass. simpl. split.
  - apply run_pass_ok_readable.
  - intros ms os Hrun. apply run_pass_filters in Hrun. simpl in Hrun.
    injection Hrun as -> ->. split_and!.
    + intros p [Hm _]%elem_of_missing_of [Hs _]%elem_of_stale_of. congruence.
    + intros p [[_ Hp]%elem_of_missing_of | [_ Hp]%elem_of_stale_of]; done.
    + intros Hnd. split; by apply NoDup_filter.
Qed.

Lemma pass_arrays_witness :
  NoDup ["c.txt"] ∧ NoDup ["a.txt"].
Proof.
  destruct (pass_arrays (demo_env true IgnoreForNow) backend "Backend"
              demo_world) as [_ Harrays].
  destruct (Harrays ["c.txt"] ["a.txt"]) as (_ & _ & Hnd); [reflexivity|].
  apply Hnd. apply NoDup_ListNoDup. vm_compute.
  repeat constructor; simpl; intuition discriminate.
Defined.

(** ** What a pass does to the mapping *)

(** A pass either leaves the mapping with line 53 applied and the file as it
    was, or it had findings, was answered with a dismissal and recorded both
    arrays; the file then holds the new mapping when it could be written and
    is as it was when not. *)
Lemma validateSummaries_mapping (env : Env) (dir label : string) (w : World) :
  let after := validateSummaries env dir label w in
  let d := dismissed_for (dismissed w) label in
  (dismissed after.2 = ensure_record (dismissed w) label
   ∧ disk after.2 = disk w)
  ∨ (prompt_action env label = DismissAlerts
     ∧ all_readable env dir (tracked env dir) = true
     ∧ dismissed after.2
       = record_dismissals (ensure_record (dismissed w) label) label
           (missing_of env dir d (tracked env dir)
            ++ stale_of env dir d (tracked env dir))
     ∧ (writable env = true ∧ after.1 = Ok tt
        ∧ disk after.2 = Some (dismissed after.2)
        ∨ writable env = false ∧ after.1 = Throw WriteError
          ∧ disk after.2 = disk w)).
Proof.
  intros after d. unfold after. rewrite validateSummaries_run_pass. fold d.
  destruct (run_pass env dir d (tracked env dir) ([], [])) as [[ms os]|e]
    eqn:Hrun; [|by left].
  assert (all_readable env dir (tracked env dir) = true) as Hall
    by (apply (run_pass_ok_readable env dir d _ ([], [])); by eexists).
  apply run_pass_filters in Hrun. simpl in Hrun. injection Hrun as -> ->.
  destruct (is_empty _ && is_empty _); [by left|].
  destruct (prompt_action env label) eqn:Hprompt; [by left | | by left].
  right. rewrite apply_action_dismiss.
  destruct (writable env); simpl; split_and!; try done; [left|right]; done.
Qed.

(** X4. Nothing the script does removes a dismissal: whatever scopes are
    selected, whatever the user answers and however the run ends, every path
    in a scope's set before the run is in it afterwards. *)
Theorem dismissals_only_grow (env : Env)
    (directories : list (string * string)) (w : World)
    (label path : string) :
  path ∈ dismissed_for (dismissed w) label →
  path ∈ dismissed_for (dismissed (entry_point env directories w).2) label.
Proof.
  assert (∀ dir l w0,
            path ∈ dismissed_for (dismissed w0) label →
            path ∈ dismissed_for
                     (dismissed (validateSummaries env dir l w0).2) label)
    as Hpass.
  { intros dir l w0 Hin.
    destruct (validateSummaries_mapping env dir l w0)
      as [[-> _] | (_ & _ & -> & _)].
    - by rewrite dismissed_for_ensure.
    - destruct (decide (l = label)) as [->|Hne].
      + apply elem_of_dismissed_for_record. left.
        by rewrite dismissed_for_ensure.
      + by rewrite dismissed_for_record_ne, dismissed_for_ensure. }
  assert (∀ dirs w0,
            path ∈ dismissed_for (dismissed w0) label →
            path ∈ dismissed_for
                     (dismissed (for_directories env dirs w0).2) label)
    as Hrun.
  { induction dirs as [|[dir l] dirs IH]; intros w0 Hin; simpl; [done|].
    unfold bind at 1. specialize (Hpass dir l w0 Hin).
    destruct (validateSummaries env dir l w0) as [[[]|e] w1]; simpl in *.
    - by apply IH.
    - done. }
  intros Hin. specialize (Hrun directories w Hin). unfold entry_point.
  by destruct (for_directories env directories w) as [[[]|e] w'].
Qed.

Lemma dismissals_only_grow_witness :
  "d.txt" ∈ dismissed_for
              (dismissed (entry_point (two_scope_env true DismissAlerts)
                            [(backend, "Backend"); (frontend, "Frontend")]
                            demo_world).2) "Backend".
Proof.
  apply (dismissals_only_grow (two_scope_env true DismissAlerts)
           [(backend, "Backend"); (frontend, "Frontend")] demo_world
           "Backend" "d.txt").
  in_list.
Defined.

(** X5. A pass of one scope leaves the records of all other scopes as they
    are, in memory, whatever the answer and the outcome. *)
Theorem other_scopes_untouched (env : Env) (targetDir dirLabel : string)
    (w : World) (other : string) :
  other ≠ dirLabel →
  dismissed (validateSummaries env targetDir dirLabel w).2 !! other
  = dismissed w !! other.
Proof.
  intros Hne.
  destruct (validateSummaries_mapping env targetDir dirLabel w)
    as [[-> _] | (_ & _ & -> & _)]; unfold record_dismissals, ensure_record;
    by rewrite ?lookup_insert_ne.
Qed.

Lemma other_scopes_untouched_witness :
  dismissed (validateSummaries (two_scope_env true DismissAlerts) frontend
               "Frontend" demo_world).2 !! "Backend"
  = Some ["d.txt"].
Proof.
  rewrite (other_scopes_untouched (two_scope_env true DismissAlerts) frontend
             "Frontend" demo_world "Backend"); [reflexivity | discriminate].
Defined.

(** X6. A pass dismisses findings of its own listing only: a path in the
    scope's set after the pass was in it before, or is a tracked path of the
    scope that the pass found missing or outdated. *)
Theorem only_findings_are_dismissed (env : Env) (targetDir dirLabel : string)
    (w : World) (path : string) :
  path ∈ dismissed_for (dismissed (validateSummaries env targetDir dirLabel w).2)
           dirLabel →
  path ∈ dismissed_for (dismissed w) dirLabel
  ∨ (path ∈ tracked env targetDir
     ∧ (classify env targetDir path (dismissed_for (dismissed w) dirLabel)
        = Ok Missing
        ∨ classify env targetDir path (dismissed_for (dismissed w) dirLabel)
          = Ok Stale)).
Proof.
  destruct (validateSummaries_mapping env targetDir dirLabel w)
    as [[-> _] | (_ & _ & -> & _)].
  - rewrite dismissed_for_ensure. by left.
  - rewrite elem_of_dismissed_for_record, dismissed_for_ensure, elem_of_app.
    intros [?|[Hm|Hs]]; [by left | right | right].
    + apply elem_of_missing_of in Hm as [? ?]. auto.
    + apply elem_of_stale_of in Hs as [? ?]. auto.
Qed.

Lemma only_findings_are_dismissed_witness :
  "a.txt" ∈ dismissed_for (dismissed demo_world) "Backend"
  ∨ ("a.txt" ∈ tracked (demo_env true DismissAlerts) backend
     ∧ (classify (demo_env true DismissAlerts) backend "a.txt"
          (dismissed_for (dismissed demo_world) "Backend") = Ok Missing
        ∨ classify (demo_env true DismissAlerts) backend "a.txt"
            (dismissed_for (dismissed demo_world) "Backend") = Ok Stale)).
Proof.
  apply (only_findings_are_dismissed (demo_env true DismissAlerts) backend
           "Backend" demo_world "a.txt").
  in_list.
Defined.

(** ** Memory and file *)

Lemma in_sync_pass (env : Env) (dir label : string) (w w' : World) :
  in_sync w →
  validateSummaries env dir label w = (Ok tt, w') →
  in_sync w'.
Proof.
  intros (stored & Hdisk & Hsets) Hpass.
  pose proof (validateSummaries_mapping env dir label w) as Hmap.
  rewrite Hpass in Hmap. simpl in Hmap.
  destruct Hmap as [[Hd Hk] | (_ & _ & Hd & [(_ & _ & Hk) | (_ & [=] & _)])].
  - exists stored. rewrite Hk. split; [done|].
    intros l. by rewrite Hd, dismissed_for_ensure.
  - by exists (dismissed w').
Qed.

(** X7. Loading leaves memory and file in agreement, and a run that ends
    without an error keeps them so: after it, [dismissed.json] holds, for
    every scope, exactly the set the process has in memory, so no dismissal
    of a finished run is lost. *)
Theorem store_stays_in_sync (env : Env)
    (directories : list (string * string)) (w0 w w' : World) :
  (load_dismissed env w0 = (Ok tt, w) → in_sync w)
  ∧ (in_sync w →
     for_directories env directories w = (Ok tt, w') →
     in_sync w').
Proof.
  split.
  - unfold load_dismissed, writeJSON_dismissed.
    destruct (disk w0) as [stored|] eqn:Hdisk.
    + intros [= <-]. by exists stored.
    + destruct (writable env); [|done]. simpl. intros [= <-]. by exists ∅.
  - revert w. induction directories as [|[dir l] dirs IH]; intros w Hsync.
    + by intros [= <-].
    + simpl. unfold bind at 1.
      destruct (validateSummaries env dir l w) as [[[]|e] w1] eqn:Hpass;
        [|done].
      apply IH. by apply (in_sync_pass env dir l w).
Qed.

Lemma store_stays_in_sync_witness :
  in_sync (for_directories (two_scope_env true DismissAlerts)
             [(backend, "Backend"); (frontend, "Frontend")]
             (load_dismissed (two_scope_env true DismissAlerts)
                {| dismissed := ∅; disk := None; console := [] |}).2).2.
Proof.
  destruct (store_stays_in_sync (two_scope_env true DismissAlerts)
              [(backend, "Backend"); (frontend, "Frontend")]
              {| dismissed := ∅; disk := None; console := [] |}
              (load_dismissed (two_scope_env true DismissAlerts)
                 {| dismissed := ∅; disk := None; console := [] |}).2
              (for_directories (two_scope_env true DismissAlerts)
                 [(backend, "Backend"); (frontend, "Frontend")]
                 (load_dismissed (two_scope_env true DismissAlerts)
                    {| dismissed := ∅; disk := None; console := [] |}).2).2)
    as [Hload Hrun].
  apply Hrun.
  - apply Hload. reflexivity.
  - reflexivity.
Defined.



(** ** The run *)

Lemma validateSummaries_returns (env : Env) (dir label : string) (w : World) :
  all_readable env dir (tracked env dir) = true →
  writable env = true ∨ prompt_action env label ≠ DismissAlerts →
  (validateSummaries env dir label w).1 = Ok tt.
Proof.
  intros Hall Hsave. rewrite validateSummaries_readable by done.
  destruct (is_empty _ && is_empty _); [done|].
  destruct (prompt_action env label) eqn:Hprompt; [done | | done].
  rewrite apply_action_dismiss. destruct Hsave as [->|?]; done.
Qed.

(** X9. When, for every selected scope, the metadata of the tracked files
    with a summary can be read, and the file can be written or no scope is
    answered with a dismissal, the run audits every scope and exits with
    status 0, printing no error. *)
Theorem run_exits_with_0 (env : Env) (directories : list (string * string))
    (w : World) :
  (∀ dir label, (dir, label) ∈ directories →
                all_readable env dir (tracked env dir) = true) →
  writable env = true ∨ (∀ label, prompt_action env label ≠ DismissAlerts) →
  (entry_point env directories w).1 = 0
  ∧ ∀ e, ErrorOccurred e ∈ console (entry_point env directories w).2 →
         ErrorOccurred e ∈ console w.
Proof.
  intros Hall Hsave.
  assert (∀ dir label w0 ev,
            ev ∈ console (validateSummaries env dir label w0).2 →
            (∀ e, ev ≠ ErrorOccurred e) ∨ ev ∈ console w0) as Hquiet.
  { intros dir label w0 ev. rewrite validateSummaries_run_pass.
    unfold after_listing, printed, reports.
    destruct (run_pass _ _ _ _ _) as [[ms os]|e]; simpl.
    - destruct (is_empty ms && is_empty os); simpl.
      + destruct (git_ls_files env dir), (is_empty ms), (is_empty os);
          simpl; rewrite ?elem_of_app, ?elem_of_cons, ?elem_of_nil;
          intros H; decompose [or] H; subst; auto.
      + destruct (prompt_action env label);
          rewrite ?apply_action_dismiss; try destruct (writable env);
          destruct (git_ls_files env dir), (is_empty ms), (is_empty os);
          simpl; rewrite ?elem_of_app, ?elem_of_cons, ?elem_of_nil;
          intros H; decompose [or] H; subst; auto.
    - destruct (git_ls_files env dir); simpl;
        rewrite ?elem_of_app, ?elem_of_cons, ?elem_of_nil;
        intros H; decompose [or] H; subst; auto. }
  assert (∃ w', for_directories env directories w = (Ok tt, w')
                ∧ ∀ e, ErrorOccurred e ∈ console w' →
                       ErrorOccurred e ∈ console w) as (w' & Hrun & Hcons).
  { revert w. induction directories as [|[dir label] dirs IH]; intros w.
    - exists w. by split.
    - assert ((validateSummaries env dir label w).1 = Ok tt) as Hok.
      { apply validateSummaries_returns.
        - apply (Hall dir label). by left.
        - destruct Hsave as [?|Hno]; [by left | right; apply Hno]. }
      simpl. unfold bind at 1.
      pose proof (Hquiet dir label w) as Hq.
      destruct (validateSummaries env dir label w) as [r w1]. simpl in *.
      subst r.
      destruct (IH (λ d l Hin, Hall d l (list_elem_of_further _ _ _ Hin)) w1)
        as (w' & Hrun & Hcons).
      exists w'. split; [done|]. intros e He.
      destruct (Hq _ (Hcons e He)) as [Hne|?]; [|done].
      by destruct (Hne e). }
  unfold entry_point. by rewrite Hrun.
Qed.

Lemma run_exits_with_0_witness :
  (entry_point (two_scope_env true DismissAlerts)
     [(backend, "Backend"); (frontend, "Frontend")] demo_world).1 = 0.
Proof.
  apply (run_exits_with_0 (two_scope_env true DismissAlerts)
           [(backend, "Backend"); (frontend, "Frontend")] demo_world).
  - intros dir label Hin. apply list_elem_of_In in Hin. simpl in Hin.
    destruct Hin as [[= <- <-] | [[= <- <-] | []]]; reflexivity.
  - left. reflexivity.
Defined.

(** ** The stored array *)

Lemma prefix_foldl_Set_add (l s : list string) :
  s `prefix_of` foldl Set_add s l.
Proof.
  revert s. induction l as [|x l IH]; intros s; simpl; [done|].
  trans (Set_add s x); [|apply IH].
  unfold Set_add. destruct (arr_includes s x); [done|]. by apply prefix_app_r.
Qed.

(** X10. A dismissal keeps the scope's old entries in front, in their order
    (once each), and appends behind them only paths of the two arrays that
    were not dismissed before; an old array without repetition is a prefix
    of the new one. *)
Theorem old_entries_stay_in_front (d : gmap string (list string))
    (dirLabel : string) (toDismiss : list string) :
  (∃ added,
     dismissed_for (record_dismissals d dirLabel toDismiss) dirLabel
     = Set_of (dismissed_for d dirLabel) ++ added
     ∧ ∀ x, x ∈ added → x ∈ toDismiss ∧ x ∉ dismissed_for d dirLabel)
  ∧ (NoDup (dismissed_for d dirLabel) →
     dismissed_for d dirLabel
     `prefix_of` dismissed_for (record_dismissals d dirLabel toDismiss)
                   dirLabel).
Proof.
  set (old := dismissed_for d dirLabel).
  assert (∃ added,
            dismissed_for (record_dismissals d dirLabel toDismiss) dirLabel
            = Set_of old ++ added
            ∧ ∀ x, x ∈ added → x ∈ toDismiss ∧ x ∉ old) as Hadded.
  { rewrite dismissed_for_record_eq. fold old. rewrite Set_of_app.
    destruct (prefix_foldl_Set_add toDismiss (Set_of old)) as [added Heq].
    exists added. split; [done|]. intros x Hx.
    pose proof (NoDup_foldl_Set_add toDismiss (Set_of old) (NoDup_Set_of old))
      as Hnd.
    rewrite Heq in Hnd. apply NoDup_app in Hnd as (_ & Hdisj & _).
    assert (x ∉ old) as Hnew.
    { intros Hold. apply (Hdisj x); [by apply elem_of_Set_of | done]. }
    split; [|done].
    assert (x ∈ foldl Set_add (Set_of old) toDismiss) as Hin
      by (rewrite Heq; apply elem_of_app; by right).
    apply elem_of_foldl_Set_add in Hin as [Hin|Hin]; [|done].
    rewrite elem_of_Set_of in Hin. exfalso. exact (Hnew Hin). }
  split; [done|].
  intros Hnd. destruct Hadded as (added & -> & _).
  rewrite Set_of_NoDup by done. by apply prefix_app_r.
Qed.

Lemma old_entries_stay_in_front_witness :
  ["d.txt"] `prefix_of`
    dismissed_for (record_dismissals {["Backend" := ["d.txt"]]} "Backend"
                     ["c.txt"; "d.txt"; "a.txt"]) "Backend".
Proof.
  destruct (old_entries_stay_in_front {["Backend" := ["d.txt"]]} "Backend"
              ["c.txt"; "d.txt"; "a.txt"]) as [_ Hprefix].
  apply Hprefix. apply NoDup_ListNoDup. vm_compute.
  repeat constructor; simpl; intuition discriminate.
Defined.

(** ** Nothing to report *)





(** ** Independent scopes *)

(** X12. What a pass finds for one scope does not depend on a pass of
    another scope made before it, whatever that pass was answered and however
    it ended: the two arrays (or the error) are the same as without it. *)
Theorem scopes_are_independent (env : Env)
    (dirA labelA dirB labelB : string) (w : World) :
  labelA ≠ labelB →
  (classification_pass env dirB labelB
     (validateSummaries env dirA labelA w).2).1
  = (classification_pass env dirB labelB w).1.
Proof.
  intros Hne. rewrite !classification_pass_run_pass. simpl.
  assert (dismissed_for (dismissed (validateSummaries env dirA labelA w).2)
            labelB
          = dismissed_for (dismissed w) labelB) as ->; [|done].
  destruct (validateSummaries_mapping env dirA labelA w)
    as [[-> _] | (_ & _ & -> & _)].
  - apply dismissed_for_ensure.
  - by rewrite dismissed_for_record_ne, dismissed_for_ensure.
Qed.

Lemma scopes_are_independent_witness :
  (classification_pass (two_scope_env true DismissAlerts) frontend "Frontend"
     (validateSummaries (two_scope_env true DismissAlerts) backend "Backend"
        demo_world).2).1
  = (classification_pass (two_scope_env true DismissAlerts) frontend
       "Frontend" demo_world).1.
Proof.
  apply (scopes_are_independent (two_scope_env true DismissAlerts)
           backend "Backend" frontend "Frontend" demo_world).
  discriminate.
Defined.
